(** * tripmind-api: the flight-search route

    A shallow embedding of [app/api/flight-search/route.js].  The older copy
    of the route in the repository has the same token cache, duration
    parser, normalizer and filter, line for line; it differs in the base URL,
    which it hard-wires, and in the CORS helper.

    Conventions of the embedding.
    - In the handler a JavaScript number is an exact rational ([Q]); epoch
      milliseconds and lifetimes in whole seconds are integers ([Z]).  The
      duration parser is modelled twice: [isoDurationToHours], on a string
      or an absent value and in exact arithmetic, is what the handler's
      model calls; [Binary64.isoDurationToHours] is the function on any
      JSON value and in double precision, with its [TypeError].
    - A JavaScript string is a [string] of 8-bit characters.  The case
      mapping is that of ASCII: on strings with other characters
      [toUpperCase] is not the engine's, and statements that depend on it
      are made for ASCII strings ([all_ascii]).
    - A property of the request body is [Undefined], [Null] or a value of
      the type the handler's comments give it.  In the provider's payload
      every access goes through [?.], [||], [??] or [Boolean], which treat a
      missing and a [null] property alike: both are [None].
    - [Date.now()], [fetch] and the module-level [tokenCache] are effects of
      a state-and-exception monad over a [World]; one handler runs at a
      time.  A thrown value is kept as the string the handler's [catch]
      block makes of it. *)

From Stdlib Require Import ZArith QArith Qround Lia Lqa List Bool.
From Stdlib Require Import Strings.String Strings.Ascii.
From Stdlib Require Import Numbers.DecimalString.
From Stdlib Require Import Numbers.Cyclic.Int63.Uint63.
From Stdlib Require Import Floats.PrimFloat Floats.SpecFloat Floats.FloatOps.
From Stdlib Require Import Floats.FloatAxioms Floats.FloatLemmas.
Import ListNotations.

Local Open Scope string_scope.
Local Open Scope list_scope.
Local Open Scope Z_scope.

(** ** JavaScript primitives used by the route *)

Module Js.

(** A property that may be missing ([undefined]), [null], or present. *)
Inductive field (A : Type) : Type :=
| Undefined
| Null
| Val (a : A).
Arguments Undefined {A}.
Arguments Null {A}.
Arguments Val {A} a.

(** [ToBoolean] on the value types that occur. *)
Definition truthy_string (s : string) : bool :=
  match s with EmptyString => false | String _ _ => true end.

Definition truthy_Z (z : Z) : bool := negb (z =? 0).

Definition truthy_Q (q : Q) : bool := negb (Qeq_bool q 0).

Definition truthy_field {A} (t : A -> bool) (v : field A) : bool :=
  match v with Val a => t a | _ => false end.

Definition truthy_opt {A} (t : A -> bool) (v : option A) : bool :=
  match v with Some a => t a | None => false end.

(** [\d] *)
Definition isDigit (c : ascii) : bool :=
  let n := N_of_ascii c in ((48 <=? n) && (n <=? 57))%N.

Definition digitValue (c : ascii) : Z := Z.of_N (N_of_ascii c) - 48.

(** The longest run of digits at the head of [s], and what follows it. *)
Fixpoint takeDigits (s : string) : string :=
  match s with
  | String c s' => if isDigit c then String c (takeDigits s') else EmptyString
  | EmptyString => EmptyString
  end.

Fixpoint dropDigits (s : string) : string :=
  match s with
  | String c s' => if isDigit c then dropDigits s' else s
  | EmptyString => EmptyString
  end.

(** [(s.match(/(\d+)X/) || [])[1]] for a marker character [X]: the capture
    group of the leftmost match, [None] for [undefined].  At a given start
    the greedy [\d+] takes the whole run of digits; a shorter run is
    followed by a digit, so backtracking cannot succeed where the whole
    run is not followed by the marker. *)
Fixpoint match_digits_then (X : ascii) (s : string) : option string :=
  match s with
  | EmptyString => None
  | String _ s' =>
      match takeDigits s, dropDigits s with
      | String d ds, String b _ =>
          if Ascii.eqb b X then Some (String d ds) else match_digits_then X s'
      | _, _ => match_digits_then X s'
      end
  end.

(** [parseInt] on the strings it is given here: it reads the leading
    decimal digits.  (Capture groups of [\d+] are non-empty runs of
    digits, so neither sign, white space nor [NaN] can occur.)  This is
    the integer the digits denote; [Binary64.parseInt] is the Number the
    engine makes of it. *)
Fixpoint parseInt_from (acc : Z) (s : string) : Z :=
  match s with
  | String c s' =>
      if isDigit c then parseInt_from (acc * 10 + digitValue c) s' else acc
  | EmptyString => acc
  end.

Definition parseInt (s : string) : Z := parseInt_from 0 s.

(** [Math.round] in exact arithmetic: the nearest integer, ties towards
    +infinity. *)
Definition Math_round (x : Q) : Z := Qfloor (x + (1 # 2)).

(** [String.prototype.startsWith] *)
Definition startsWith (p s : string) : bool := String.prefix p s.

(** [String.prototype.toUpperCase], on ASCII strings *)
Definition upperChar (c : ascii) : ascii :=
  let n := N_of_ascii c in
  if ((97 <=? n) && (n <=? 122))%N then ascii_of_N (n - 32) else c.

Fixpoint toUpperCase (s : string) : string :=
  match s with
  | String c s' => String (upperChar c) (toUpperCase s')
  | EmptyString => EmptyString
  end.

(** [s.slice(0, n)] *)
Definition slice0 (n : nat) (s : string) : string := String.substring 0 n s.

(** [String.prototype.trim] *)
Definition isSpace (c : ascii) : bool :=
  let n := N_of_ascii c in
  (((9 <=? n) && (n <=? 13)) || (n =? 32) || (n =? 160))%N.

Fixpoint trimStart (s : string) : string :=
  match s with
  | String c s' => if isSpace c then trimStart s' else s
  | EmptyString => EmptyString
  end.

Fixpoint trimEnd (s : string) : string :=
  match s with
  | String c s' =>
      match trimEnd s' with
      | EmptyString => if isSpace c then EmptyString else String c EmptyString
      | r => String c r
      end
  | EmptyString => EmptyString
  end.

Definition trim (s : string) : string := trimEnd (trimStart s).

(** [s.split(",")] *)
Fixpoint split_comma (s : string) : list string :=
  match s with
  | EmptyString => [EmptyString]
  | String c s' =>
      let r := split_comma s' in
      if Ascii.eqb c "," then EmptyString :: r
      else match r with
           | x :: xs => String c x :: xs
           | [] => [String c EmptyString]
           end
  end.

(** [String(v)] *)
Definition String_of_Z (z : Z) : string :=
  NilZero.string_of_int (Z.to_int z).

Definition String_of_field {A} (str : A -> string) (v : field A) : string :=
  match v with
  | Undefined => "undefined"
  | Null => "null"
  | Val a => str a
  end.

(** [a || b] on a property holding a string or a number *)
Definition or_string (v : field string) (d : string) : string :=
  match v with Val (String c s) => String c s | _ => d end.

Definition or_Z (v : field Z) (d : Z) : Z :=
  match v with Val z => if truthy_Z z then z else d | _ => d end.

(** [Set]: elements in insertion order, compared by [SameValueZero]
    (which on strings and [null] is equality). *)
Section JsSet.
Context {A : Type} (eq_dec : forall x y : A, {x = y} + {x <> y}).

Definition Set_has (s : list A) (x : A) : bool :=
  if in_dec eq_dec x s then true else false.

Definition Set_add (s : list A) (x : A) : list A :=
  if Set_has s x then s else s ++ [x].

(** [new Set(iterable)]; [Array.from(set)] and [[...set]] are the
    elements in this order. *)
Definition new_Set (l : list A) : list A := fold_left Set_add l [].
End JsSet.

Definition opt_string_dec : forall x y : option string, {x = y} + {x <> y}.
Proof. decide equality. apply string_dec. Defined.

(** Any value [JSON.parse] can give, or [undefined]; a number is the
    double it was parsed to. *)
#[warnings="-register-all"]
Inductive Value : Type :=
| VUndefined
| VNull
| VBoolean (b : bool)
| VNumber (x : float)
| VString (s : string)
| VArray (items : list Value)
| VObject (props : list (string * Value)).

(** [ToBoolean] *)
Definition truthy (v : Value) : bool :=
  match v with
  | VUndefined | VNull => false
  | VBoolean b => b
  | VNumber x => negb (PrimFloat.is_zero x || PrimFloat.is_nan x)
  | VString s => truthy_string s
  | VArray _ | VObject _ => true
  end.

End Js.

Import Js.

(** ** DACH whitelist of departure airports *)

Definition DACH_IATA : list string :=
  new_Set string_dec
    [ (* DE *)
      "BER";"BRE";"CGN";"DTM";"DRS";"DUS";"FRA";"HHN";"FDH";"HAM";"HAJ";"FKB";
      "LEJ";"FMM";"MUC";"FMO";"NUE";"PAD";"STR";"NRN";
      (* AT *)
      "GRZ";"INN";"KLU";"LNZ";"SZG";"VIE";
      (* CH *)
      "BSL";"BRN";"GVA";"LUG";"SIR";"ACH";"ZRH" ].

(** ** Utils: ISO-8601 duration "PT7H30M" -> 7.5 hours

    On a duration that is a string or absent, in exact arithmetic. *)

Definition isoDurationToHours (iso : option string) : Q :=
  match iso with
  | None => 0
  | Some iso =>
      if negb (truthy_string iso) || negb (startsWith "PT" iso) then 0
      else
        let h := match_digits_then "H" iso in
        let m := match_digits_then "M" iso in
        let hours :=
          ((match h with
            | Some h => if truthy_string h then inject_Z (parseInt h) else 0
            | None => 0
            end)
           +
           (match m with
            | Some m => if truthy_string m then inject_Z (parseInt m) / 60 else 0
            | None => 0
            end))%Q in
        (inject_Z (Math_round (hours * 10)) / 10)%Q
  end.

(** ** The duration parser on any value, in double precision *)

Module Binary64.

(** How a call ends: with a value, or with the [TypeError] of calling a
    method the receiver does not have. *)
Inductive Outcome (A : Type) : Type :=
| Returned (a : A)
| TypeError.
Arguments Returned {A} a.
Arguments TypeError {A}.

(** The Number value of an integer: the nearest double, ties to even.
    (For more than twenty significant digits the language lets [parseInt]
    round less exactly.) *)
Definition Number_of_Z (z : Z) : float :=
  SF2Prim (binary_normalize prec emax z 0 false).

(** [parseInt] on a run of decimal digits *)
Definition parseInt (s : string) : float := Number_of_Z (Js.parseInt s).

(** [Math.round]: the nearest integer, ties towards +infinity; a result
    that is zero keeps the sign of the argument; infinities and [NaN] are
    returned as they are.  A finite double is [m * 2^e], and an integer
    already when [0 <= e]. *)
Definition Math_round (y : float) : float :=
  match Prim2SF y with
  | S754_finite s m e =>
      if 0 <=? e then y
      else
        let n := if s then Z.neg m else Z.pos m in
        let k := (2 * n + 2 ^ (- e)) / 2 ^ (1 - e) in
        if s && (k =? 0) then neg_zero else Number_of_Z k
  | _ => y
  end.

Definition isoDurationToHours (iso : Value) : Outcome float :=
  if negb (truthy iso) then Returned 0%float
  else
    match iso with
    | VString iso =>
        if negb (startsWith "PT" iso) then Returned 0%float
        else
          let h := match_digits_then "H" iso in
          let m := match_digits_then "M" iso in
          let hours :=
            ((match h with
              | Some h => if truthy_string h then parseInt h else 0
              | None => 0
              end)
             +
             (match m with
              | Some m => if truthy_string m then parseInt m / 60 else 0
              | None => 0
              end))%float in
          Returned (Math_round (hours * 10) / 10)%float
    | _ => TypeError (* [iso.startsWith] is not a function *)
    end.

End Binary64.

(** ** Data model *)

(** The provider's offer records, as parsed from its JSON. *)
Module Raw.

Record Point : Type := {
  iataCode : option string;
  at_ : option string
}.

Record Segment : Type := {
  departure : option Point;
  arrival : option Point;
  carrierCode : option string;
  number : option string
}.

Record Itinerary : Type := {
  duration : option string;
  segments : option (list (option Segment))
}.

Record Price : Type := {
  total : option string;
  currency : option string
}.

Record Offer : Type := {
  price : option Price;
  itineraries : option (list (option Itinerary));
  validatingAirlineCodes : option (list (option string))
}.

(** The body of the offer search's answer: [{data: [offer...]}]. *)
Record SearchData : Type := {
  data : option (list (option Offer))
}.

End Raw.

(** The flattened records the route answers with. *)
Module Out.

Record Segment : Type := {
  from : option string;
  to : option string;
  depart : option string;
  arrive : option string;
  carrier : option string;
  number : option string
}.

Record Itinerary : Type := {
  durationHours : Q;
  segments : list Segment
}.

Record Offer : Type := {
  price : option string;
  currency : field string;
  totalDurationHours : Q;
  itineraries : list Itinerary;
  airlines : list (option string)
}.

End Out.

(** The JSON body of a search request. *)
Module Req.

Record Body : Type := {
  origin : field string;
  destination : field string;
  departDate : field string;
  returnDate : field string;
  adults : field Z;
  currency : field string;
  maxFlightHours : field Q
}.

End Req.

(** ** Effects: clock, network, process environment, token cache *)

(** The OAuth endpoint's JSON: [{access_token, expires_in}]. *)
Record TokenData : Type := {
  access_token : field string;
  expires_in : field Z
}.

(** What [fetch] resolves to.  [json] is [inl msg] when [resp.json()]
    throws (a body that is not JSON, or not an object to read properties
    from), [msg] being the thrown value as the [catch] block prints it,
    and the parsed payload otherwise. *)
Record FetchResponse (A : Type) : Type := {
  status : Z;
  text : string;
  json : string + A
}.
Arguments status {A} _.
Arguments text {A} _.
Arguments json {A} _.

(** [resp.ok]: a status in the range 200..299. *)
Definition ok {A} (resp : FetchResponse A) : bool :=
  (200 <=? status resp) && (status resp <=? 299).

(** [fetch] rejects (with [reason], as the [catch] block prints it) or
    resolves. *)
Inductive Fetched (A : Type) : Type :=
| Rejected (reason : string)
| Resolved (resp : FetchResponse A).
Arguments Rejected {A} reason.
Arguments Resolved {A} resp.

(** An outbound call, as handed to [fetch].  The query string of the offer
    search is kept as the list of [URLSearchParams] entries. *)
Inductive Request : Type :=
| TokenRequest (url : string) (form : list (string * string))
| OfferRequest (url : string) (params : list (string * string))
    (authorization : string).

Definition isTokenRequest (r : Request) : bool :=
  match r with TokenRequest _ _ => true | OfferRequest _ _ _ => false end.

(** [process.env] *)
Record ProcessEnv : Type := {
  AMADEUS_ENV : option string;
  AMADEUS_CLIENT_ID : option string;
  AMADEUS_CLIENT_SECRET : option string;
  ALLOWED_ORIGINS : option string;
  ALLOWED_ORIGIN : option string
}.

(** [process.env.X || d] *)
Definition env_or (v : option string) (d : string) : string :=
  match v with Some (String c s) => String c s | _ => d end.

(** [let tokenCache = { token: null, expiresAt: 0 }] *)
Record TokenCache : Type := {
  token : field string;
  expiresAt : Z
}.

Definition tokenCache0 : TokenCache := {| token := Null; expiresAt := 0 |}.

(** The mutable part: the cache slot, how often the clock has been read,
    and every call sent so far (oldest first). *)
Record World : Type := {
  tokenCache : TokenCache;
  clockReads : nat;
  sent : list Request
}.

(** The surroundings of one process: the value of the n-th clock reading,
    the two remote services, which may answer according to all that was
    sent before, and what the runtime's [Response] constructor throws for
    a status it refuses.  The offer search's JSON may be [null] ([None]). *)
Record Env : Type := {
  clock : nat -> Z;
  tokenService : list Request -> Request -> Fetched TokenData;
  offerService : list Request -> Request -> Fetched (option Raw.SearchData);
  responseError : Z -> string;
  process_env : ProcessEnv
}.

(** How a computation ends.  Of a thrown value [e] the route reads one
    thing only, [String(e?.message || e)] in its [catch] block: [Throw]
    carries that string.  For an [Error] with a non-empty message it is
    the message; for one with an empty message it is the error's name. *)
Inductive Completion (A : Type) : Type :=
| Normal (a : A)
| Throw (printed : string).
Arguments Normal {A} a.
Arguments Throw {A} printed.

Definition M (A : Type) : Type := Env -> World -> Completion A * World.

Definition ret {A} (a : A) : M A := fun _ w => (Normal a, w).

Definition bind {A B} (c : M A) (k : A -> M B) : M B :=
  fun e w =>
    match c e w with
    | (Normal a, w') => k a e w'
    | (Throw msg, w') => (Throw msg, w')
    end.

Definition throw {A} (msg : string) : M A := fun _ w => (Throw msg, w).

(** [try { body } catch (e) { handler }] *)
Definition try_catch {A} (body : M A) (handler : string -> M A) : M A :=
  fun e w =>
    match body e w with
    | (Normal a, w') => (Normal a, w')
    | (Throw msg, w') => handler msg e w'
    end.

Definition Date_now : M Z :=
  fun e w =>
    (Normal (clock e (clockReads w)),
     {| tokenCache := tokenCache w;
        clockReads := S (clockReads w);
        sent := sent w |}).

Definition get_tokenCache : M TokenCache := fun _ w => (Normal (tokenCache w), w).

Definition set_tokenCache (c : TokenCache) : M unit :=
  fun _ w =>
    (Normal tt,
     {| tokenCache := c; clockReads := clockReads w; sent := sent w |}).

Definition get_env : M ProcessEnv := fun e w => (Normal (process_env e), w).

(** [await fetch(...)]: the call is recorded, then the service answers. *)
Definition fetch {A} (service : Env -> list Request -> Request -> Fetched A)
    (req : Request) : M (FetchResponse A) :=
  fun e w =>
    let w' := {| tokenCache := tokenCache w;
                 clockReads := clockReads w;
                 sent := sent w ++ [req] |} in
    match service e (sent w) req with
    | Rejected reason => (Throw reason, w')
    | Resolved resp => (Normal resp, w')
    end.

(** [await resp.json()] *)
Definition resp_json {A} (resp : FetchResponse A) : M A :=
  match json resp with
  | inl msg => throw msg
  | inr data => ret data
  end.

Declare Scope js_scope.
Delimit Scope js_scope with js.
Notation "x <- c ;; k" := (bind c (fun x => k))
  (at level 100, c at next level, right associativity) : js_scope.
Notation "c ;;; k" := (bind c (fun _ => k))
  (at level 100, right associativity) : js_scope.
Local Open Scope js_scope.

(** ** In-memory OAuth token cache (Amadeus) *)

Definition base_url (penv : ProcessEnv) : string :=
  if String.eqb (env_or (AMADEUS_ENV penv) "test") "production"
  then "https://api.amadeus.com"
  else "https://test.api.amadeus.com".

Definition getAmadeusToken : M (field string) :=
  now <- Date_now ;;
  cache <- get_tokenCache ;;
  if truthy_field truthy_string (token cache) && (now <? expiresAt cache - 60000)
  then ret (token cache)
  else
    penv <- get_env ;;
    let base := base_url penv in
    let url := (base ++ "/v1/security/oauth2/token")%string in
    let body :=
      [ ("grant_type", "client_credentials");
        ("client_id", env_or (AMADEUS_CLIENT_ID penv) "");
        ("client_secret", env_or (AMADEUS_CLIENT_SECRET penv) "") ] in
    resp <- fetch tokenService (TokenRequest url body) ;;
    if negb (ok resp)
    then
      let txt := text resp in
      (* [new Error(m)] with the non-empty [m] prints as [m] *)
      throw ("Amadeus OAuth failed: " ++ txt)%string
    else
      data <- resp_json resp ;;
      cache <- get_tokenCache ;;
      set_tokenCache {| token := access_token data; expiresAt := expiresAt cache |} ;;;
      now' <- Date_now ;;
      cache <- get_tokenCache ;;
      set_tokenCache {| token := token cache;
                        expiresAt := now' + or_Z (expires_in data) 0 * 1000 |} ;;;
      cache <- get_tokenCache ;;
      ret (token cache).

(** ** Offer normalizer: the callbacks of [(data?.data || []).map(...)] *)

(** [v?.p] *)
Definition chain {A B} (v : option A) (p : A -> option B) : option B :=
  match v with Some a => p a | None => None end.

(** [v || []] *)
Definition or_nil {A} (v : option (list A)) : list A :=
  match v with Some l => l | None => [] end.

(** [x || 0] on a number *)
Definition or_zero (x : Q) : Q := if truthy_Q x then x else 0%Q.

(** [s => ({ from: s?.departure?.iataCode, ... })] *)
Definition normalizeSegment (s : option Raw.Segment) : Out.Segment :=
  {| Out.from := chain (chain s Raw.departure) Raw.iataCode;
     Out.to := chain (chain s Raw.arrival) Raw.iataCode;
     Out.depart := chain (chain s Raw.departure) Raw.at_;
     Out.arrive := chain (chain s Raw.arrival) Raw.at_;
     Out.carrier := chain s Raw.carrierCode;
     Out.number := chain s Raw.number |}.

(** [it => { ...; return { durationHours, segments } }] *)
Definition normalizeItinerary (it : option Raw.Itinerary) : Out.Itinerary :=
  let durationHours := isoDurationToHours (chain it Raw.duration) in
  let segments := map normalizeSegment (or_nil (chain it Raw.segments)) in
  {| Out.durationHours := durationHours; Out.segments := segments |}.

(** The carrier codes handed to [concat]:
    [(offer?.itineraries || []).flatMap(it => (it?.segments || []).map(s => s?.carrierCode)).filter(Boolean)] *)
Definition carrierCodes (offer : option Raw.Offer) : list (option string) :=
  filter (truthy_opt truthy_string)
    (flat_map
       (fun it => map (fun s => chain s Raw.carrierCode) (or_nil (chain it Raw.segments)))
       (or_nil (chain offer Raw.itineraries))).

(** [offer => { ...; return { price, currency: currencyCode, totalDurationHours, itineraries, airlines } }];
    [currency] is the request's. *)
Definition normalizeOffer (currency : field string) (offer : option Raw.Offer) : Out.Offer :=
  let price := chain (chain offer Raw.price) Raw.total in
  let currencyCode :=
    match chain (chain offer Raw.price) Raw.currency with
    | Some c => Val c
    | None => currency
    end in
  let itineraries := map normalizeItinerary (or_nil (chain offer Raw.itineraries)) in
  let airlines :=
    new_Set opt_string_dec
      (or_nil (chain offer Raw.validatingAirlineCodes) ++ carrierCodes offer) in
  let totalDurationHours :=
    (inject_Z
       (Math_round
          (fold_left (fun sum it => sum + or_zero (Out.durationHours it)) itineraries 0 * 10))
     / 10)%Q in
  {| Out.price := price;
     Out.currency := currencyCode;
     Out.totalDurationHours := totalDurationHours;
     Out.itineraries := itineraries;
     Out.airlines := airlines |}.

(** Optional [maxFlightHours] filter (sum of outbound and return):
    [(maxFlightHours && Number(maxFlightHours) > 0) ? items.filter(...) : items] *)
Definition filterByMaxFlightHours (maxFlightHours : field Q) (items : list Out.Offer)
  : list Out.Offer :=
  match maxFlightHours with
  | Val n =>
      if truthy_Q n && negb (Qle_bool n 0)
      then filter (fun x => Qle_bool (Out.totalDurationHours x) n) items
      else items
  | _ => items
  end.

(** ** Responses and CORS helpers *)

Record QueryEcho : Type := {
  q_origin : string;
  q_destination : string;
  q_departDate : field string;
  q_returnDate : field string;
  q_adults : field Z;
  q_currency : field string;
  q_maxFlightHours : field Q
}.

(** The JSON bodies the route sends.  [fetchedAt] is kept as the epoch
    milliseconds of [new Date()]; its ISO rendering is left out. *)
Inductive JsonBody : Type :=
| EmptyObject
| ErrorBody (error : string) (details : option string)
| SearchResult (query : QueryEcho) (fetchedAt : Z) (count : nat)
    (results : list Out.Offer).

Record Response : Type := {
  statusCode : Z;
  body : JsonBody;
  headers : list (string * string)
}.

(** The response object [NextResponse.json(body, { status })] builds. *)
Definition json_response (b : JsonBody) (st : Z) : Response :=
  {| statusCode := st; body := b;
     headers := [("content-type", "application/json")] |}.

(** The statuses that go with no body: [101, 103, 204, 205, 304]. *)
Definition null_body_status (st : Z) : bool :=
  (st =? 101) || (st =? 103) || (st =? 204) || (st =? 205) || (st =? 304).

(** The [Response] constructor takes a status in 200..599 (it throws a
    [RangeError] for any other), and with a body, as here, none of the
    null-body statuses (a [TypeError]). *)
Definition status_accepted (st : Z) : bool :=
  (200 <=? st) && (st <=? 599) && negb (null_body_status st).

(** [NextResponse.json(body, { status })] *)
Definition NextResponse_json (b : JsonBody) (st : Z) : M Response :=
  fun e w =>
    if status_accepted st then (Normal (json_response b st), w)
    else (Throw (responseError e st), w).

(** [res.headers.set(name, value)] *)
Fixpoint headers_set (name value : string) (hs : list (string * string))
  : list (string * string) :=
  match hs with
  | [] => [(name, value)]
  | (n, v) :: hs' =>
      if String.eqb n name then (n, value) :: hs'
      else (n, v) :: headers_set name value hs'
  end.

Definition set_header (name value : string) (res : Response) : Response :=
  {| statusCode := statusCode res; body := body res;
     headers := headers_set name value (headers res) |}.

Definition parseAllowedOrigins (penv : ProcessEnv) : list string :=
  let multi :=
    filter truthy_string (map trim (split_comma (env_or (ALLOWED_ORIGINS penv) ""))) in
  let single := trim (env_or (ALLOWED_ORIGIN penv) "") in
  let base := filter truthy_string (multi ++ [single]) in
  let dev := ["http://localhost:3000"; "http://127.0.0.1:3000"] in
  new_Set string_dec (base ++ dev).

Definition withCORS (res : Response) (origin : option string) : M Response :=
  penv <- get_env ;;
  let allowedOrigins := parseAllowedOrigins penv in
  let res :=
    match origin with
    | Some o =>
        if truthy_string o && existsb (fun a => String.eqb a o) allowedOrigins
        then set_header "Vary" "Origin" (set_header "Access-Control-Allow-Origin" o res)
        else res
    | None => res
    end in
  ret (set_header "Access-Control-Allow-Headers" "Content-Type"
         (set_header "Access-Control-Allow-Methods" "POST, OPTIONS" res)).

(** An incoming request: its [Origin] header and what [request.json()]
    gives ([inl msg] when it throws). *)
Record HttpRequest : Type := {
  header_origin : option string;
  json_body : string + Req.Body
}.

Definition request_json (request : HttpRequest) : M Req.Body :=
  match json_body request with
  | inl msg => throw msg
  | inr b => ret b
  end.

(** Preflight handler *)
Definition OPTIONS (request : HttpRequest) : M Response :=
  res <- NextResponse_json EmptyObject 204 ;;
  withCORS res (header_origin request).

(** ** POST /api/flight-search *)

(** [const bad = v => v === undefined || v === null || (typeof v === "string" && v.trim() === "")] *)
Definition bad (v : field string) : bool :=
  match v with
  | Undefined => true
  | Null => true
  | Val s => String.eqb (trim s) ""
  end.

(** A destructuring default: [{ adults = 1, currency = "EUR" }] *)
Definition default {A} (v : field A) (d : A) : field A :=
  match v with Undefined => Val d | _ => v end.

(** [v || null] *)
Definition or_null {A} (t : A -> bool) (v : field A) : field A :=
  if truthy_field t v then v else Null.

Definition POST (request : HttpRequest) : M Response :=
  try_catch
    (b <- request_json request ;;
     let origin := Req.origin b in
     let destination := Req.destination b in
     let departDate := Req.departDate b in
     let returnDate := Req.returnDate b in
     let adults := default (Req.adults b) 1 in
     let currency := default (Req.currency b) "EUR" in
     let maxFlightHours := Req.maxFlightHours b in
     (* validation *)
     if bad origin || bad destination || bad departDate
        || negb (truthy_field truthy_Z adults)
     then
       res <- NextResponse_json (ErrorBody "Missing required fields" None) 400 ;;
       withCORS res (header_origin request)
     else
       let ORI := slice0 3 (toUpperCase (String_of_field id origin)) in
       let DST := slice0 3 (toUpperCase (String_of_field id destination)) in
       (* DACH whitelist, for the origin only *)
       if negb (Set_has string_dec DACH_IATA ORI)
       then
         res <- NextResponse_json (ErrorBody "Origin not allowed (DACH only)" None) 400 ;;
         withCORS res (header_origin request)
       else
         (* OAuth token *)
         token <- getAmadeusToken ;;
         penv <- get_env ;;
         let base := base_url penv in
         (* query parameters of GET /v2/shopping/flight-offers *)
         let params :=
           [ ("originLocationCode", ORI);
             ("destinationLocationCode", DST);
             ("departureDate", String_of_field id departDate);
             ("adults", String_of_Z (Z.min (Z.max (or_Z adults 1) 1) 9));
             ("currencyCode", or_string currency "EUR");
             ("max", "20");
             ("nonStop", "false") ] in
         let params :=
           if truthy_field truthy_string returnDate
           then params ++ [("returnDate", String_of_field id returnDate)]
           else params in
         let url := (base ++ "/v2/shopping/flight-offers")%string in
         resp <- fetch offerService
                   (OfferRequest url params
                      ("Bearer " ++ String_of_field id token)%string) ;;
         if negb (ok resp)
         then
           let txt := text resp in
           res <- NextResponse_json (ErrorBody "Amadeus API error" (Some txt))
                    (status resp) ;;
           withCORS res (header_origin request)
         else
           data <- resp_json resp ;;
           (* normalize *)
           let items := map (normalizeOffer currency) (or_nil (chain data Raw.data)) in
           (* optional maxFlightHours filter *)
           let filtered := filterByMaxFlightHours maxFlightHours items in
           fetchedAt <- Date_now ;;
           res <- NextResponse_json
                    (SearchResult
                       {| q_origin := ORI;
                          q_destination := DST;
                          q_departDate := departDate;
                          q_returnDate := or_null truthy_string returnDate;
                          q_adults := adults;
                          q_currency := currency;
                          q_maxFlightHours := or_null truthy_Q maxFlightHours |}
                       fetchedAt (List.length filtered) filtered)
                    200 ;;
           withCORS res (header_origin request))
    (fun e =>
       (* [e] is [String(e?.message || e)] *)
       res <- NextResponse_json (ErrorBody "Server error" (Some e)) 500 ;;
       withCORS res (header_origin request)).

(** ** A sample process, for running the route on concrete inputs *)

Module Sample.

Definition penv : ProcessEnv :=
  {| AMADEUS_ENV := None;
     AMADEUS_CLIENT_ID := Some "id";
     AMADEUS_CLIENT_SECRET := Some "secret";
     ALLOWED_ORIGINS := Some "https://tripmind.example, https://app.example";
     ALLOWED_ORIGIN := None |}.

Definition segment (c : string) : option Raw.Segment :=
  Some {| Raw.departure := Some {| Raw.iataCode := Some "FRA"; Raw.at_ := Some "2025-06-01T08:00:00" |};
          Raw.arrival := Some {| Raw.iataCode := Some "JFK"; Raw.at_ := Some "2025-06-01T16:45:00" |};
          Raw.carrierCode := Some c;
          Raw.number := Some "400" |}.

Definition offer (codes : list (option string)) (durations : list string) : option Raw.Offer :=
  Some {| Raw.price := Some {| Raw.total := Some "512.30"; Raw.currency := Some "EUR" |};
          Raw.itineraries :=
            Some (map (fun d => Some {| Raw.duration := Some d;
                                        Raw.segments := Some [segment "LH"; segment "UA"] |})
                      durations);
          Raw.validatingAirlineCodes := Some codes |}.

Definition offers : list (option Raw.Offer) :=
  [ offer [Some "LH"] ["PT8H45M"; "PT7H50M"];
    offer [Some "UA"] ["PT12H5M"; "PT14H"];
    offer [Some "LH"; Some "UA"] ["PT8H45M"] ].

(** A clock that advances one second per reading; a credential service
    granting a token for [lifetime]; an offer search answering [offers]. *)
Definition env (lifetime : field Z) : Env :=
  {| clock := fun n => 1748764800000 + 1000 * Z.of_nat n;
     tokenService := fun _ _ =>
       Resolved {| status := 200; text := "";
                   json := inr {| access_token := Val "tok"; expires_in := lifetime |} |};
     offerService := fun _ _ =>
       Resolved {| status := 200; text := "";
                   json := inr (Some {| Raw.data := Some offers |}) |};
     responseError := fun _ => "Invalid response status code";
     process_env := penv |}.

(** The same process with a credential service that refuses. *)
Definition env_refusing : Env :=
  {| clock := clock (env Undefined);
     tokenService := fun _ _ =>
       Resolved {| status := 401; text := "invalid_client";
                   json := inl "unused" |};
     offerService := offerService (env Undefined);
     responseError := responseError (env Undefined);
     process_env := penv |}.

(** An offer whose validating-airline codes start with an empty entry. *)
Definition offer_with_empty_code : option Raw.Offer :=
  Some {| Raw.price := None;
          Raw.itineraries := Some [Some {| Raw.duration := Some "PT2H"; Raw.segments := Some [segment ""; segment "LH"] |}];
          Raw.validatingAirlineCodes := Some [Some ""; Some "LH"] |}.

(** The same process with an offer search that answers 429. *)
Definition env_offers_refusing : Env :=
  {| clock := clock (env (Val 1799));
     tokenService := tokenService (env (Val 1799));
     offerService := fun _ _ =>
       Resolved {| status := 429; text := "rate limit"; json := inl "unused" |};
     responseError := responseError (env (Val 1799));
     process_env := penv |}.

(** A deployment of the older configuration: one allowed origin, no list. *)
Definition env_single_origin : Env :=
  {| clock := clock (env (Val 1799));
     tokenService := tokenService (env (Val 1799));
     offerService := offerService (env (Val 1799));
     responseError := responseError (env (Val 1799));
     process_env :=
       {| AMADEUS_ENV := Some "test";
          AMADEUS_CLIENT_ID := Some "id";
          AMADEUS_CLIENT_SECRET := Some "secret";
          ALLOWED_ORIGINS := None;
          ALLOWED_ORIGIN := Some "https://tripmind.example" |} |}.

(** A request in lower case with an empty return date and currency and a
    negative adult count. *)
Definition odd_body : Req.Body :=
  {| Req.origin := Val "str";
     Req.destination := Val "pmi";
     Req.departDate := Val "2025-06-01";
     Req.returnDate := Val "";
     Req.adults := Val (-3);
     Req.currency := Val "";
     Req.maxFlightHours := Undefined |}.

Definition odd_request : HttpRequest :=
  {| header_origin := None; json_body := inr odd_body |}.

Definition world0 : World :=
  {| tokenCache := tokenCache0; clockReads := 0; sent := [] |}.

Definition search (origin destination : string) (adults : field Z) (maxHours : field Q)
  : HttpRequest :=
  {| header_origin := Some "http://localhost:3000";
     json_body :=
       inr {| Req.origin := Val origin;
              Req.destination := Val destination;
              Req.departDate := Val "2025-06-01";
              Req.returnDate := Undefined;
              Req.adults := adults;
              Req.currency := Undefined;
              Req.maxFlightHours := maxHours |} |}.

End Sample.

(** ** Vocabulary of the specification *)

(** A decimal digit sequence, and the number it denotes in positional
    notation. *)
Fixpoint all_digits (s : string) : bool :=
  match s with
  | String c s' => isDigit c && all_digits s'
  | EmptyString => true
  end.

Definition digit_sequence (s : string) : Prop :=
  s <> EmptyString /\ all_digits s = true.

Fixpoint decimal_value (s : string) : Z :=
  match s with
  | String c s' => digitValue c * 10 ^ Z.of_nat (String.length s') + decimal_value s'
  | EmptyString => 0
  end.

(** The regular expression [(\d+)X] matches [s] at offset [i] with group
    [g]: [s] is [i] characters, then the digit sequence [g], then [X]. *)
Definition matches_at (X : ascii) (s : string) (i : nat) (g : string) : Prop :=
  exists pre post,
    s = (pre ++ g ++ String X post)%string
    /\ String.length pre = i
    /\ digit_sequence g.

(** [r] is [x] rounded to the nearest tenth, half up: ten times [x] lies
    within half a unit of an integer [k], the upper end excluded, and [r]
    is [k] tenths. *)
Definition rounds_half_up_to_tenth (x r : Q) : Prop :=
  exists k : Z,
    (r == inject_Z k / 10 /\ inject_Z k - (1 # 2) <= x * 10 < inject_Z k + (1 # 2))%Q.

(** The credential exchange: the one call [getAmadeusToken] can send. *)
Definition oauthRequest (penv : ProcessEnv) : Request :=
  TokenRequest
    (base_url penv ++ "/v1/security/oauth2/token")%string
    [ ("grant_type", "client_credentials");
      ("client_id", env_or (AMADEUS_CLIENT_ID penv) "");
      ("client_secret", env_or (AMADEUS_CLIENT_SECRET penv) "") ].

(** A token is cached: the slot holds a non-empty string. *)
Definition holds_token (c : TokenCache) : bool :=
  truthy_field truthy_string (token c).

(** The cache is valid at [now]: a token is cached and [now] lies more
    than 60 seconds before the recorded expiry. *)
Definition valid_at (c : TokenCache) (now : Z) : Prop :=
  holds_token c = true /\ expiresAt c - now > 60000.

(** The world after one more reading of the clock. *)
Definition tick (w : World) : World :=
  {| tokenCache := tokenCache w; clockReads := S (clockReads w); sent := sent w |}.

(** The world after one more call. *)
Definition sending (req : Request) (w : World) : World :=
  {| tokenCache := tokenCache w; clockReads := clockReads w; sent := sent w ++ [req] |}.

(** The world after the cache slot was overwritten. *)
Definition caching (c : TokenCache) (w : World) : World :=
  {| tokenCache := c; clockReads := clockReads w; sent := sent w |}.

(** The list without the later occurrences of its elements. *)
Fixpoint first_occurrences {A} (eq_dec : forall x y : A, {x = y} + {x <> y})
    (l : list A) : list A :=
  match l with
  | [] => []
  | x :: l' => x :: remove eq_dec x (first_occurrences eq_dec l')
  end.

(** An airline code that is neither absent nor empty. *)
Definition present (code : option string) : bool :=
  match code with
  | Some (String _ _) => true
  | _ => false
  end.

(** The offer's declared validating-airline codes. *)
Definition validating_codes (offer : option Raw.Offer) : list (option string) :=
  match offer with
  | Some o => match Raw.validatingAirlineCodes o with Some l => l | None => [] end
  | None => []
  end.

(** Every segment's carrier code, itinerary by itinerary. *)
Definition segments_of (it : option Raw.Itinerary) : list (option Raw.Segment) :=
  match it with
  | Some i => match Raw.segments i with Some l => l | None => [] end
  | None => []
  end.

Definition itineraries_of (offer : option Raw.Offer) : list (option Raw.Itinerary) :=
  match offer with
  | Some o => match Raw.itineraries o with Some l => l | None => [] end
  | None => []
  end.

Definition carrier_of (s : option Raw.Segment) : option string :=
  match s with Some g => Raw.carrierCode g | None => None end.

Definition segment_carriers (offer : option Raw.Offer) : list (option string) :=
  List.concat (map (fun it => map carrier_of (segments_of it)) (itineraries_of offer)).

(** The airlines field as the specification words it: both sources with
    their empty and absent entries dropped, validating codes first, later
    duplicates removed. *)
Definition airlines_both_filtered (offer : option Raw.Offer) : list (option string) :=
  first_occurrences opt_string_dec
    (filter present (validating_codes offer) ++ filter present (segment_carriers offer)).

(** The airlines field with only the carrier codes filtered. *)
Definition airlines_carriers_filtered (offer : option Raw.Offer) : list (option string) :=
  first_occurrences opt_string_dec
    (validating_codes offer ++ filter present (segment_carriers offer)).


(** The request passes the check of its required fields. *)
Definition validated (b : Req.Body) : bool :=
  negb (bad (Req.origin b)) && negb (bad (Req.destination b))
  && negb (bad (Req.departDate b))
  && truthy_field truthy_Z (default (Req.adults b) 1).

(** An airport code as the route normalizes it: upper case, first three
    characters. *)
Definition normalized_code (v : field string) : string :=
  slice0 3 (toUpperCase (String_of_field id v)).

Definition in_DACH (code : string) : bool := Set_has string_dec DACH_IATA code.

(** The adult count as sent to the provider. *)
Definition clamped_adults (b : Req.Body) : Z :=
  Z.min (Z.max (or_Z (default (Req.adults b) 1) 1) 1) 9.

(** The offer search the route sends for a validated body, given the
    bearer token. *)
Definition offerRequest (penv : ProcessEnv) (b : Req.Body) (token : field string)
  : Request :=
  let params :=
    [ ("originLocationCode", normalized_code (Req.origin b));
      ("destinationLocationCode", normalized_code (Req.destination b));
      ("departureDate", String_of_field id (Req.departDate b));
      ("adults", String_of_Z (clamped_adults b));
      ("currencyCode", or_string (default (Req.currency b) "EUR") "EUR");
      ("max", "20");
      ("nonStop", "false") ] in
  OfferRequest
    (base_url penv ++ "/v2/shopping/flight-offers")%string
    (if truthy_field truthy_string (Req.returnDate b)
     then params ++ [("returnDate", String_of_field id (Req.returnDate b))]
     else params)
    ("Bearer " ++ String_of_field id token)%string.

(** A query parameter of a call. *)
Definition param (name : string) (r : Request) : option string :=
  match r with
  | OfferRequest _ params _ =>
      option_map snd (find (fun kv => String.eqb (fst kv) name) params)
  | TokenRequest _ _ => None
  end.

(** The offers in the provider's answer, and their normalized records. *)
Definition offers_of (data : option Raw.SearchData) : list (option Raw.Offer) :=
  match data with
  | Some d => match Raw.data d with Some l => l | None => [] end
  | None => []
  end.

Definition items_of (b : Req.Body) (data : option Raw.SearchData) : list Out.Offer :=
  map (normalizeOffer (default (Req.currency b) "EUR")) (offers_of data).

(** The headers [withCORS] leaves on a response. *)
Definition cors (penv : ProcessEnv) (res : Response) (origin : option string) : Response :=
  let res :=
    match origin with
    | Some o =>
        if truthy_string o
           && existsb (fun a => String.eqb a o) (parseAllowedOrigins penv)
        then set_header "Vary" "Origin" (set_header "Access-Control-Allow-Origin" o res)
        else res
    | None => res
    end in
  set_header "Access-Control-Allow-Headers" "Content-Type"
    (set_header "Access-Control-Allow-Methods" "POST, OPTIONS" res).

(** The three error answers and the success answer of the route. *)
Definition missing_fields : Response :=
  json_response (ErrorBody "Missing required fields" None) 400.

Definition origin_not_allowed : Response :=
  json_response (ErrorBody "Origin not allowed (DACH only)" None) 400.

Definition server_error (printed : string) : Response :=
  json_response (ErrorBody "Server error" (Some printed)) 500.

(** The provider's error, passed on with its status. *)
Definition upstream_error (txt : string) (st : Z) : Response :=
  json_response (ErrorBody "Amadeus API error" (Some txt)) st.

Definition search_result (b : Req.Body) (data : option Raw.SearchData) (fetchedAt : Z)
  : Response :=
  let filtered := filterByMaxFlightHours (Req.maxFlightHours b) (items_of b data) in
  json_response
    (SearchResult
       {| q_origin := normalized_code (Req.origin b);
          q_destination := normalized_code (Req.destination b);
          q_departDate := Req.departDate b;
          q_returnDate := or_null truthy_string (Req.returnDate b);
          q_adults := default (Req.adults b) 1;
          q_currency := default (Req.currency b) "EUR";
          q_maxFlightHours := or_null truthy_Q (Req.maxFlightHours b) |}
       fetchedAt (List.length filtered) filtered)
    200.

(** Double precision.  [tenths k] is the double nearest to [k / 10]:
    both operands are exact and the division rounds once. *)
Definition tenths (k : Z) : float := (Binary64.Number_of_Z k / 10)%float.

(** The call returns [x] rounded to the nearest tenth, half up on the
    tenfold value: the double of [k] tenths, where ten times [x] lies
    within half a unit of the integer [k], the upper end excluded. *)
Definition returns_tenth_of (x : Q) (o : Binary64.Outcome float) : Prop :=
  exists k : Z,
    o = Binary64.Returned (tenths k)
    /\ (inject_Z k - (1 # 2) <= x * 10 < inject_Z k + (1 # 2))%Q.

(** The parser's arithmetic on [h] hours and [m] minutes, with both parts,
    with the hours alone and with the minutes alone, gives the tenths of
    the exact rounding, for all [h] and [m] below the bounds. *)
Definition tenths_agree (hours minutes : nat) : bool :=
  forallb
    (fun h =>
       let h := Z.of_nat h in
       Leibniz.eqb
         (Binary64.Math_round ((Binary64.Number_of_Z h + 0) * 10) / 10)%float
         (tenths (10 * h))
       && forallb
            (fun m =>
               let m := Z.of_nat m in
               Leibniz.eqb
                 (Binary64.Math_round
                    ((Binary64.Number_of_Z h + Binary64.Number_of_Z m / 60) * 10) / 10)%float
                 (tenths ((600 * h + 10 * m + 30) / 60)))
            (seq 0 minutes))
    (seq 0 hours)
  && forallb
       (fun m =>
          let m := Z.of_nat m in
          Leibniz.eqb
            (Binary64.Math_round ((0 + Binary64.Number_of_Z m / 60) * 10) / 10)%float
            (tenths ((10 * m + 30) / 60)))
       (seq 0 minutes).

(** Neither negative nor [NaN]: a positive zero, a positive finite double
    or +infinity. *)
Definition nonneg_sf (x : spec_float) : Prop :=
  match x with
  | S754_zero s | S754_infinity s | S754_finite s _ _ => s = false
  | S754_nan => False
  end.

Definition nonneg (x : float) : Prop := nonneg_sf (Prim2SF x).

(** A string of ASCII characters only. *)
Fixpoint all_ascii (s : string) : bool :=
  match s with
  | String c s' => (N_of_ascii c <? 128)%N && all_ascii s'
  | EmptyString => true
  end.

(** The capital of a letter, by its place in the alphabet; any other
    character is itself. *)
Definition small_letters : string := "abcdefghijklmnopqrstuvwxyz".
Definition capital_letters : string := "ABCDEFGHIJKLMNOPQRSTUVWXYZ".

Fixpoint place (c : ascii) (s : string) : option nat :=
  match s with
  | EmptyString => None
  | String a s' => if Ascii.eqb a c then Some 0%nat else option_map S (place c s')
  end.

Definition capital (c : ascii) : ascii :=
  match place c small_letters with
  | Some i => match String.get i capital_letters with Some u => u | None => c end
  | None => c
  end.

(** [code] is [s] in upper case, cut to its first three characters: it
    has three characters, or all of [s] if that is shorter, and each is
    the capital of the character of [s] at its place. *)
Definition normalized_to (s code : string) : Prop :=
  String.length code = Nat.min 3 (String.length s)
  /\ forall i c, (i < 3)%nat -> String.get i s = Some c ->
                 String.get i code = Some (capital c).

(** ** The older copy of the route

    The second file of the repository: the same handler with the test base
    URL written out and a CORS helper that knows a single configured
    origin. *)
Module Legacy.

Definition getAmadeusToken : M (field string) :=
  now <- Date_now ;;
  cache <- get_tokenCache ;;
  if truthy_field truthy_string (token cache) && (now <? expiresAt cache - 60000)
  then ret (token cache)
  else
    let url := "https://test.api.amadeus.com/v1/security/oauth2/token" in
    penv <- get_env ;;
    let body :=
      [ ("grant_type", "client_credentials");
        ("client_id", env_or (AMADEUS_CLIENT_ID penv) "");
        ("client_secret", env_or (AMADEUS_CLIENT_SECRET penv) "") ] in
    resp <- fetch tokenService (TokenRequest url body) ;;
    if negb (ok resp)
    then throw ("Amadeus OAuth failed: " ++ text resp)%string
    else
      data <- resp_json resp ;;
      cache <- get_tokenCache ;;
      set_tokenCache {| token := access_token data; expiresAt := expiresAt cache |} ;;;
      now' <- Date_now ;;
      cache <- get_tokenCache ;;
      set_tokenCache {| token := token cache;
                        expiresAt := now' + or_Z (expires_in data) 0 * 1000 |} ;;;
      cache <- get_tokenCache ;;
      ret (token cache).

Definition withCORS (res : Response) (origin : option string) : M Response :=
  penv <- get_env ;;
  let allowed := env_or (ALLOWED_ORIGIN penv) "" in
  let devAllowed := ["http://localhost:3000"; "http://127.0.0.1:3000"] in
  let res :=
    match origin with
    | Some o =>
        if truthy_string o
           && (String.eqb o allowed || existsb (fun a => String.eqb a o) devAllowed)
        then set_header "Vary" "Origin" (set_header "Access-Control-Allow-Origin" o res)
        else res
    | None => res
    end in
  ret (set_header "Access-Control-Allow-Headers" "Content-Type"
         (set_header "Access-Control-Allow-Methods" "POST, OPTIONS" res)).

Definition POST (request : HttpRequest) : M Response :=
  try_catch
    (b <- request_json request ;;
     let origin := Req.origin b in
     let destination := Req.destination b in
     let departDate := Req.departDate b in
     let returnDate := Req.returnDate b in
     let adults := default (Req.adults b) 1 in
     let currency := default (Req.currency b) "EUR" in
     let maxFlightHours := Req.maxFlightHours b in
     if bad origin || bad destination || bad departDate
        || negb (truthy_field truthy_Z adults)
     then
       res <- NextResponse_json (ErrorBody "Missing required fields" None) 400 ;;
       withCORS res (header_origin request)
     else
       let ORI := slice0 3 (toUpperCase (String_of_field id origin)) in
       let DST := slice0 3 (toUpperCase (String_of_field id destination)) in
       if negb (Set_has string_dec DACH_IATA ORI)
       then
         res <- NextResponse_json (ErrorBody "Origin not allowed (DACH only)" None) 400 ;;
         withCORS res (header_origin request)
       else
         token <- getAmadeusToken ;;
         let params :=
           [ ("originLocationCode", ORI);
             ("destinationLocationCode", DST);
             ("departureDate", String_of_field id departDate);
             ("adults", String_of_Z (Z.min (Z.max (or_Z adults 1) 1) 9));
             ("currencyCode", or_string currency "EUR");
             ("max", "20");
             ("nonStop", "false") ] in
         let params :=
           if truthy_field truthy_string returnDate
           then params ++ [("returnDate", String_of_field id returnDate)]
           else params in
         let url := "https://test.api.amadeus.com/v2/shopping/flight-offers" in
         resp <- fetch offerService
                   (OfferRequest url params
                      ("Bearer " ++ String_of_field id token)%string) ;;
         if negb (ok resp)
         then
           res <- NextResponse_json (ErrorBody "Amadeus API error" (Some (text resp)))
                    (status resp) ;;
           withCORS res (header_origin request)
         else
           data <- resp_json resp ;;
           let items := map (normalizeOffer currency) (or_nil (chain data Raw.data)) in
           let filtered := filterByMaxFlightHours maxFlightHours items in
           fetchedAt <- Date_now ;;
           res <- NextResponse_json
                    (SearchResult
                       {| q_origin := ORI;
                          q_destination := DST;
                          q_departDate := departDate;
                          q_returnDate := or_null truthy_string returnDate;
                          q_adults := adults;
                          q_currency := currency;
                          q_maxFlightHours := or_null truthy_Q maxFlightHours |}
                       fetchedAt (List.length filtered) filtered)
                    200 ;;
           withCORS res (header_origin request))
    (fun e =>
       res <- NextResponse_json (ErrorBody "Server error" (Some e)) 500 ;;
       withCORS res (header_origin request)).

End Legacy.

(** ** More vocabulary *)

(** [res.headers.get(name)] *)
Definition header_get (name : string) (res : Response) : option string :=
  option_map snd (find (fun kv => String.eqb (fst kv) name) (headers res)).

(** The origin is one [withCORS] lets in. *)
Definition origin_allowed (penv : ProcessEnv) (origin : option string) : bool :=
  match origin with
  | Some o => truthy_string o && existsb (fun a => String.eqb a o) (parseAllowedOrigins penv)
  | None => false
  end.

(** A string made of white space only (the empty one included). *)
Fixpoint all_space (s : string) : bool :=
  match s with
  | String c s' => isSpace c && all_space s'
  | EmptyString => true
  end.

(** A required text field that is present and not blank. *)
Definition filled (v : field string) : Prop :=
  exists s, v = Val s /\ all_space s = false.

(** A required text field that is missing, [null] or blank. *)
Definition lacking (v : field string) : Prop :=
  v = Undefined \/ v = Null \/ exists s, v = Val s /\ all_space s = true.


(** ** The duration parser *)

Section DurationParser.
Local Open Scope string_scope.

Lemma takeDigits_run (h : string) (b : ascii) (r : string) :
  all_digits h = true -> isDigit b = false ->
  takeDigits (h ++ String b r) = h /\ dropDigits (h ++ String b r) = String b r.
Proof.
  intros Hh Hb. induction h as [|c h IH]; simpl in *.
  - rewrite Hb. split; reflexivity.
  - apply andb_true_iff in Hh as [Hc Hh]. rewrite Hc.
    destruct (IH Hh) as [IH1 IH2]. rewrite IH1, IH2. split; reflexivity.
Qed.

Lemma match_skip_nondigit (X a : ascii) (s : string) :
  isDigit a = false ->
  match_digits_then X (String a s) = match_digits_then X s.
Proof.
  intros Ha. simpl. rewrite Ha. reflexivity.
Qed.

Lemma match_hit (X : ascii) (h r : string) :
  digit_sequence h -> isDigit X = false ->
  match_digits_then X (h ++ String X r) = Some h.
Proof.
  intros [Hne Hh] HX.
  destruct (takeDigits_run h X r Hh HX) as [Ht Hd].
  destruct h as [|c h]; [congruence|].
  change (String c h ++ String X r) with (String c (h ++ String X r)) in *.
  unfold match_digits_then; fold match_digits_then.
  rewrite Ht, Hd, Ascii.eqb_refl. reflexivity.
Qed.

Lemma match_skip_run (X b : ascii) (h r : string) :
  all_digits h = true -> isDigit b = false -> b <> X ->
  match_digits_then X (h ++ String b r) = match_digits_then X (String b r).
Proof.
  intros Hh Hb HbX. induction h as [|c h IH]; [reflexivity|].
  destruct (takeDigits_run (String c h) b r Hh Hb) as [Ht Hd].
  simpl in Hh. apply andb_true_iff in Hh as [Hc Hh].
  change (String c h ++ String b r) with (String c (h ++ String b r)) in *.
  unfold match_digits_then at 1; fold match_digits_then.
  rewrite Ht, Hd.
  destruct (Ascii.eqb_spec b X) as [E|_]; [contradiction|].
  apply IH, Hh.
Qed.

Lemma match_none_marker_only (X b : ascii) :
  isDigit b = false -> match_digits_then X (String b EmptyString) = None.
Proof.
  intros Hb. simpl. rewrite Hb. reflexivity.
Qed.

(** What [match] captures is a digit sequence, so [parseInt] never sees
    anything else. *)
Lemma takeDigits_all_digits (s : string) : all_digits (takeDigits s) = true.
Proof.
  induction s as [|c s IH]; simpl; [reflexivity|].
  destruct (isDigit c) eqn:E; simpl; [rewrite E, IH|]; reflexivity.
Qed.

Lemma match_digits_then_digits (X : ascii) (s g : string) :
  match_digits_then X s = Some g -> digit_sequence g.
Proof.
  induction s as [|c s IH]; [discriminate|].
  unfold match_digits_then; fold match_digits_then.
  pose proof (takeDigits_all_digits (String c s)) as Hall.
  destruct (takeDigits (String c s)) as [|d ds]; [exact IH|].
  destruct (dropDigits (String c s)) as [|b rest]; [exact IH|].
  destruct (Ascii.eqb b X); [|exact IH].
  intros [= <-]. split; [discriminate|exact Hall].
Qed.

Lemma take_drop_digits (s : string) : takeDigits s ++ dropDigits s = s.
Proof.
  induction s as [|c s IH]; [reflexivity|].
  simpl. destruct (isDigit c); simpl; [rewrite IH|]; reflexivity.
Qed.

Lemma matches_at_zero (X : ascii) (s g : string) :
  isDigit X = false ->
  matches_at X s 0 g <->
  g <> "" /\ takeDigits s = g /\ exists post, dropDigits s = String X post.
Proof.
  intros HX. split.
  - intros (pre & post & -> & Hlen & Hne & Hg).
    destruct pre; [|discriminate]. cbn [append].
    destruct (takeDigits_run g X post Hg HX) as [Ht Hd].
    split; [exact Hne|]. split; [exact Ht|]. exists post. exact Hd.
  - intros (Hne & Ht & post & Hd).
    exists "", post. cbn [append String.length].
    split; [|split; [reflexivity|split; [exact Hne|]]].
    + rewrite <- Ht, <- Hd. symmetry. apply take_drop_digits.
    + rewrite <- Ht. apply takeDigits_all_digits.
Qed.

Lemma matches_at_succ (X c : ascii) (s g : string) (i : nat) :
  matches_at X (String c s) (S i) g <-> matches_at X s i g.
Proof.
  split.
  - intros (pre & post & E & Hlen & Hg).
    destruct pre as [|a pre]; [discriminate|].
    cbn [append String.length] in E, Hlen. injection E as _ E. injection Hlen as Hlen.
    exists pre, post. auto.
  - intros (pre & post & -> & Hlen & Hg).
    exists (String c pre), post. cbn [append String.length]. auto.
Qed.

(** The embedding of [match] against the regular expression: the group
    returned is the one of the leftmost match, and [None] means that the
    expression matches nowhere. *)
Lemma match_digits_then_leftmost (X : ascii) (s : string) :
  isDigit X = false ->
  match match_digits_then X s with
  | Some g =>
      exists i, matches_at X s i g
                /\ forall j g', (j < i)%nat -> ~ matches_at X s j g'
  | None => forall i g, ~ matches_at X s i g
  end.
Proof.
  intros HX. induction s as [|c s IH].
  - cbn. intros i g (pre & post & E & _). destruct pre, g; discriminate E.
  - assert (Hstep :
      (exists g, match_digits_then X (String c s) = Some g
                 /\ matches_at X (String c s) 0 g)
      \/ (match_digits_then X (String c s) = match_digits_then X s
          /\ forall g, ~ matches_at X (String c s) 0 g)).
    { unfold match_digits_then; fold match_digits_then.
      destruct (takeDigits (String c s)) as [|d ds] eqn:Ht.
      { right. split; [reflexivity|]. intros g Hm.
        apply (matches_at_zero X _ g HX) in Hm as (Hne & Hg & _). congruence. }
      destruct (dropDigits (String c s)) as [|b rest] eqn:Hd.
      { right. split; [reflexivity|]. intros g Hm.
        apply (matches_at_zero X _ g HX) in Hm as (_ & _ & post & Hp). congruence. }
      destruct (Ascii.eqb_spec b X) as [->|Hb].
      - left. exists (String d ds). split; [reflexivity|].
        apply (matches_at_zero X _ _ HX).
        split; [discriminate|]. split; [exact Ht|]. exists rest. exact Hd.
      - right. split; [reflexivity|]. intros g Hm.
        apply (matches_at_zero X _ g HX) in Hm as (_ & _ & post & Hp). congruence. }
    destruct Hstep as [(g & -> & Hm)|[-> Hno]].
    + exists 0%nat. split; [exact Hm|]. intros j g' Hj. inversion Hj.
    + destruct (match_digits_then X s) as [g|].
      * destruct IH as (i & Hm & Hleft). exists (S i).
        split; [apply matches_at_succ, Hm|].
        intros [|j] g' Hj; [apply Hno|].
        rewrite matches_at_succ. apply Hleft. apply PeanoNat.lt_S_n, Hj.
      * intros [|i] g; [apply Hno|]. rewrite matches_at_succ. apply IH.
Qed.

Lemma isDigit_value (c : ascii) : isDigit c = true -> 0 <= digitValue c <= 9.
Proof.
  unfold isDigit, digitValue. intros H.
  apply andb_true_iff in H as [H1 H2].
  apply N.leb_le in H1, H2. lia.
Qed.

Lemma parseInt_from_decimal (s : string) (acc : Z) :
  all_digits s = true ->
  parseInt_from acc s = acc * 10 ^ Z.of_nat (String.length s) + decimal_value s.
Proof.
  revert acc. induction s as [|c s IH]; intros acc H.
  - simpl. lia.
  - simpl in H. apply andb_true_iff in H as [Hc Hs].
    cbn [parseInt_from decimal_value String.length]. rewrite Hc, (IH _ Hs).
    rewrite Nat2Z.inj_succ, Z.pow_succ_r by lia. ring.
Qed.

Lemma parseInt_decimal (s : string) :
  all_digits s = true -> parseInt s = decimal_value s.
Proof.
  intros H. unfold parseInt. rewrite (parseInt_from_decimal s 0 H). lia.
Qed.

Lemma parseInt_from_nonneg (s : string) (acc : Z) :
  0 <= acc -> 0 <= parseInt_from acc s.
Proof.
  revert acc. induction s as [|c s IH]; intros acc H; simpl; [exact H|].
  destruct (isDigit c) eqn:E; [|exact H].
  apply IH. pose proof (isDigit_value c E). lia.
Qed.

Lemma Math_round_half_up (y : Q) :
  (inject_Z (Math_round y) - (1 # 2) <= y < inject_Z (Math_round y) + (1 # 2))%Q.
Proof.
  unfold Math_round.
  pose proof (Qfloor_le (y + (1 # 2))) as Hlo.
  pose proof (Qlt_floor (y + (1 # 2))) as Hhi.
  rewrite inject_Z_plus in Hhi. change (inject_Z 1) with 1%Q in Hhi.
  split; lra.
Qed.

Lemma Math_round_nonneg (y : Q) : (0 <= y)%Q -> 0 <= Math_round y.
Proof.
  intros H. unfold Math_round.
  change 0 with (Qfloor 0). apply Qfloor_resp_le. lra.
Qed.

Lemma round_tenth_spec (x : Q) :
  rounds_half_up_to_tenth x (inject_Z (Math_round (x * 10)) / 10).
Proof.
  exists (Math_round (x * 10)). split; [reflexivity|apply Math_round_half_up].
Qed.

Lemma round_tenth_nonneg (x : Q) :
  (0 <= x)%Q -> (0 <= inject_Z (Math_round (x * 10)) / 10)%Q.
Proof.
  intros H. assert (0 <= Math_round (x * 10)) as Hk by (apply Math_round_nonneg; lra).
  rewrite Zle_Qle in Hk. change (inject_Z 0) with 0%Q in Hk.
  unfold Qdiv. apply Qmult_le_0_compat; [exact Hk|]. discriminate.
Qed.

Lemma iso_prefixed (h m : option string) (rest : string) :
  match_digits_then "H" rest = h -> match_digits_then "M" rest = m ->
  isoDurationToHours (Some ("PT" ++ rest)) =
  (inject_Z
     (Math_round
        (((match h with
           | Some h => if truthy_string h then inject_Z (parseInt h) else 0
           | None => 0
           end)
          +
          (match m with
           | Some m => if truthy_string m then inject_Z (parseInt m) / 60 else 0
           | None => 0
           end)) * 10)) / 10)%Q.
Proof.
  intros Hh Hm. unfold isoDurationToHours.
  change ("PT" ++ rest) with (String "P" (String "T" rest)).
  rewrite !(match_skip_nondigit _ _ _ (eq_refl : isDigit "P" = false)).
  rewrite !(match_skip_nondigit _ _ _ (eq_refl : isDigit "T" = false)).
  rewrite Hh, Hm.
  unfold startsWith. simpl. clear Hh Hm. destruct rest; reflexivity.
Qed.

Lemma digit_sequence_truthy (s : string) : digit_sequence s -> truthy_string s = true.
Proof.
  intros [Hne _]. destruct s; [congruence|reflexivity].
Qed.

(** In exact arithmetic the parser maps "PT{h}H{m}M" to [h + m/60] rounded
    to the nearest tenth, half up on the tenfold value, for all digit
    sequences; likewise with the H part or the M part alone. *)
Lemma isoDurationToHours_rounds_exact (h m : string) :
  digit_sequence h -> digit_sequence m ->
  rounds_half_up_to_tenth
    (inject_Z (decimal_value h) + inject_Z (decimal_value m) / 60)
    (isoDurationToHours (Some ("PT" ++ h ++ "H" ++ m ++ "M")))
  /\ rounds_half_up_to_tenth
       (inject_Z (decimal_value h))
       (isoDurationToHours (Some ("PT" ++ h ++ "H")))
  /\ rounds_half_up_to_tenth
       (inject_Z (decimal_value m) / 60)
       (isoDurationToHours (Some ("PT" ++ m ++ "M"))).
Proof.
  intros Hh Hm.
  pose proof (digit_sequence_truthy h Hh) as Th.
  pose proof (digit_sequence_truthy m Hm) as Tm.
  destruct Hh as [Hh0 Hh], Hm as [Hm0 Hm].
  assert (HH : isDigit "H" = false) by reflexivity.
  assert (HM : isDigit "M" = false) by reflexivity.
  assert (HHM : "H"%char <> "M"%char) by discriminate.
  assert (HMH : "M"%char <> "H"%char) by discriminate.
  change ("H" ++ m ++ "M") with (String "H" (m ++ String "M" "")).
  change (h ++ "H") with (h ++ String "H" "").
  change (m ++ "M") with (m ++ String "M" "").
  repeat split.
  - (* both parts *)
    rewrite (iso_prefixed (Some h) (Some m)).
    + rewrite Th, Tm, !parseInt_decimal by assumption. apply round_tenth_spec.
    + apply match_hit; [split|]; assumption.
    + rewrite (match_skip_run "M" "H" h _ Hh HH HHM).
      rewrite (match_skip_nondigit _ _ _ HH).
      apply match_hit; [split|]; assumption.
  - (* hours only *)
    rewrite (iso_prefixed (Some h) None).
    + rewrite Th, parseInt_decimal by assumption.
      destruct (round_tenth_spec (inject_Z (decimal_value h) + 0)) as [k [E B]].
      exists k. split; [exact E|]. lra.
    + apply match_hit; [split|]; assumption.
    + rewrite (match_skip_run "M" "H" h _ Hh HH HHM).
      apply match_none_marker_only, HH.
  - (* minutes only *)
    rewrite (iso_prefixed None (Some m)).
    + rewrite Tm, parseInt_decimal by assumption.
      destruct (round_tenth_spec (0 + inject_Z (decimal_value m) / 60)) as [k [E B]].
      exists k. split; [exact E|]. lra.
    + rewrite (match_skip_run "H" "M" m _ Hm HM HMH).
      apply match_none_marker_only, HM.
    + apply match_hit; [split|]; assumption.
Qed.

Lemma startsWith_PT (s : string) :
  startsWith "PT" s = true <-> exists rest, s = "PT" ++ rest.
Proof.
  unfold startsWith. split.
  - destruct s as [|a [|b rest]]; cbn -[ascii_dec]; try discriminate.
    + destruct (ascii_dec "P" a); discriminate.
    + destruct (ascii_dec "P" a) as [<-|]; [|discriminate].
      destruct (ascii_dec "T" b) as [<-|]; [|discriminate].
      intros _. exists rest. reflexivity.
  - intros [rest ->]. cbn. destruct rest; reflexivity.
Qed.

(** On an absent value or a string, and in exact arithmetic, the parser
    yields a number that is never negative, and exactly 0 for an absent
    input and for a string that does not begin with "PT". *)
Lemma isoDurationToHours_exact_nonneg (iso : option string) :
  (0 <= isoDurationToHours iso)%Q
  /\ (iso = None -> isoDurationToHours iso = 0%Q)
  /\ (forall s, iso = Some s -> (forall rest, s <> "PT" ++ rest) ->
        isoDurationToHours iso = 0%Q).
Proof.
  split; [|split].
  - destruct iso as [s|]; [|simpl; lra].
    unfold isoDurationToHours.
    destruct (negb (truthy_string s) || negb (startsWith "PT" s)); [lra|].
    apply round_tenth_nonneg.
    assert (forall g, (0 <= inject_Z (parseInt g))%Q) as Hp.
    { intros g. change 0%Q with (inject_Z 0). rewrite <- Zle_Qle.
      apply parseInt_from_nonneg. lia. }
    assert (forall g, (0 <= inject_Z (parseInt g) / 60)%Q) as Hp60.
    { intros g. unfold Qdiv. apply Qmult_le_0_compat; [apply Hp|discriminate]. }
    destruct (match_digits_then "H" s) as [g|], (match_digits_then "M" s) as [g'|];
      try destruct (truthy_string g); try destruct (truthy_string g');
      try pose proof (Hp g); try pose proof (Hp60 g'); lra.
  - intros ->. reflexivity.
  - intros s -> Hs. unfold isoDurationToHours.
    destruct (startsWith "PT" s) eqn:E.
    + apply startsWith_PT in E as [rest ->]. destruct (Hs rest eq_refl).
    + rewrite orb_true_r. reflexivity.
Qed.

Lemma Math_round_tenfold (h m : Z) :
  Math_round ((inject_Z h + inject_Z m / 60) * 10) = (600 * h + 10 * m + 30) / 60.
Proof.
  unfold Math_round.
  assert (((inject_Z h + inject_Z m / 60) * 10 + (1 # 2) == (600 * h + 10 * m + 30) # 60)%Q)
    as E.
  { unfold Qeq. cbn -[Z.mul Z.add]. ring. }
  rewrite E. reflexivity.
Qed.

(** *** The parser in double precision *)

Lemma iso64_prefixed (h m : option string) (rest : string) :
  match_digits_then "H" rest = h -> match_digits_then "M" rest = m ->
  Binary64.isoDurationToHours (VString ("PT" ++ rest)) =
  Binary64.Returned
    (Binary64.Math_round
       (((match h with
          | Some h => if truthy_string h then Binary64.parseInt h else 0
          | None => 0
          end)
         +
         (match m with
          | Some m => if truthy_string m then Binary64.parseInt m / 60 else 0
          | None => 0
          end)) * 10) / 10)%float.
Proof.
  intros Hh Hm. unfold Binary64.isoDurationToHours.
  change ("PT" ++ rest) with (String "P" (String "T" rest)).
  cbn [truthy truthy_string negb].
  rewrite !(match_skip_nondigit _ _ _ (eq_refl : isDigit "P" = false)).
  rewrite !(match_skip_nondigit _ _ _ (eq_refl : isDigit "T" = false)).
  rewrite Hh, Hm.
  unfold startsWith. simpl. clear Hh Hm. destruct rest; reflexivity.
Qed.

Lemma tenths_agree_spec (hours minutes : nat) :
  tenths_agree hours minutes = true ->
  forall h m : Z,
    0 <= h < Z.of_nat hours -> 0 <= m < Z.of_nat minutes ->
    (Binary64.Math_round
       ((Binary64.Number_of_Z h + Binary64.Number_of_Z m / 60) * 10) / 10)%float
    = tenths ((600 * h + 10 * m + 30) / 60)
    /\ (Binary64.Math_round ((Binary64.Number_of_Z h + 0) * 10) / 10)%float
       = tenths (10 * h)
    /\ (Binary64.Math_round ((0 + Binary64.Number_of_Z m / 60) * 10) / 10)%float
       = tenths ((10 * m + 30) / 60).
Proof.
  intros Hall h m Hh Hm.
  unfold tenths_agree in Hall. apply andb_true_iff in Hall as [Hhs Hms].
  rewrite forallb_forall in Hhs, Hms.
  assert (In (Z.to_nat h) (seq 0 hours)) as Ih by (apply in_seq; lia).
  assert (In (Z.to_nat m) (seq 0 minutes)) as Im by (apply in_seq; lia).
  specialize (Hhs _ Ih). specialize (Hms _ Im). cbv zeta in Hhs, Hms.
  apply andb_true_iff in Hhs as [Hh1 Hboth].
  rewrite forallb_forall in Hboth. specialize (Hboth _ Im). cbv zeta in Hboth.
  rewrite !Z2Nat.id in * by lia.
  apply FloatAxioms.Leibniz.eqb_spec in Hh1, Hboth, Hms.
  split; [exact Hboth|]. split; [exact Hh1|exact Hms].
Qed.

Lemma tenths_agree_checked : tenths_agree 100 60 = true.
Proof. vm_compute. reflexivity. Qed.

Lemma decimal_value_nonneg (s : string) : all_digits s = true -> 0 <= decimal_value s.
Proof.
  intros H. rewrite <- (parseInt_decimal s H). apply parseInt_from_nonneg. lia.
Qed.

(** C5. For digit sequences [h] below 100 and [m] below 60, the parser
    as the engine runs it, in double precision, maps "PT{h}H{m}M" to
    [h + m/60] rounded to the nearest tenth, half up on the tenfold
    value; with only the H part it maps "PT{h}H" to the rounding of [h],
    and with only the M part "PT{m}M" to the rounding of [m/60]. *)
Theorem isoDurationToHours_rounds_below_100h (h m : string) :
  digit_sequence h -> digit_sequence m ->
  decimal_value h < 100 -> decimal_value m < 60 ->
  returns_tenth_of
    (inject_Z (decimal_value h) + inject_Z (decimal_value m) / 60)
    (Binary64.isoDurationToHours (VString ("PT" ++ h ++ "H" ++ m ++ "M")))
  /\ returns_tenth_of
       (inject_Z (decimal_value h))
       (Binary64.isoDurationToHours (VString ("PT" ++ h ++ "H")))
  /\ returns_tenth_of
       (inject_Z (decimal_value m) / 60)
       (Binary64.isoDurationToHours (VString ("PT" ++ m ++ "M"))).
Proof.
  intros Hh Hm Bh Bm.
  pose proof (digit_sequence_truthy h Hh) as Th.
  pose proof (digit_sequence_truthy m Hm) as Tm.
  destruct Hh as [Hh0 Hh], Hm as [Hm0 Hm].
  pose proof (decimal_value_nonneg h Hh) as Ph.
  pose proof (decimal_value_nonneg m Hm) as Pm.
  destruct (tenths_agree_spec 100 60 tenths_agree_checked
              (decimal_value h) (decimal_value m))
    as (Eboth & Ehours & Eminutes); [lia|lia|].
  assert (HH : isDigit "H" = false) by reflexivity.
  assert (HM : isDigit "M" = false) by reflexivity.
  assert (HHM : "H"%char <> "M"%char) by discriminate.
  assert (HMH : "M"%char <> "H"%char) by discriminate.
  change ("H" ++ m ++ "M") with (String "H" (m ++ String "M" "")).
  change (h ++ "H") with (h ++ String "H" "").
  change (m ++ "M") with (m ++ String "M" "").
  split; [|split].
  - (* both parts *)
    exists ((600 * decimal_value h + 10 * decimal_value m + 30) / 60). split.
    + rewrite (iso64_prefixed (Some h) (Some m)).
      * rewrite Th, Tm. unfold Binary64.parseInt.
        rewrite !parseInt_decimal by assumption. rewrite Eboth. reflexivity.
      * apply match_hit; [split|]; assumption.
      * rewrite (match_skip_run "M" "H" h _ Hh HH HHM).
        rewrite (match_skip_nondigit _ _ _ HH).
        apply match_hit; [split|]; assumption.
    + rewrite <- Math_round_tenfold. apply Math_round_half_up.
  - (* hours only *)
    exists (10 * decimal_value h). split.
    + rewrite (iso64_prefixed (Some h) None).
      * rewrite Th. unfold Binary64.parseInt.
        rewrite parseInt_decimal by assumption. rewrite Ehours. reflexivity.
      * apply match_hit; [split|]; assumption.
      * rewrite (match_skip_run "M" "H" h _ Hh HH HHM).
        apply match_none_marker_only, HH.
    + rewrite inject_Z_mult. change (inject_Z 10) with 10%Q. lra.
  - (* minutes only *)
    exists ((10 * decimal_value m + 30) / 60). split.
    + rewrite (iso64_prefixed None (Some m)).
      * rewrite Tm. unfold Binary64.parseInt.
        rewrite parseInt_decimal by assumption. rewrite Eminutes. reflexivity.
      * rewrite (match_skip_run "H" "M" m _ Hm HM HMH).
        apply match_none_marker_only, HM.
      * apply match_hit; [split|]; assumption.
    + pose proof (Math_round_half_up ((inject_Z 0 + inject_Z (decimal_value m) / 60) * 10))
        as B.
      rewrite Math_round_tenfold in B. change (600 * 0) with 0 in B.
      rewrite Z.add_0_l in B. change (inject_Z 0) with 0%Q in B. lra.
Qed.

Lemma isoDurationToHours_rounds_below_100h_witness :
  digit_sequence "7" /\ digit_sequence "30"
  /\ returns_tenth_of (7 + 30 / 60) (Binary64.isoDurationToHours (VString "PT7H30M"))
  /\ returns_tenth_of 7 (Binary64.isoDurationToHours (VString "PT7H"))
  /\ returns_tenth_of (30 / 60) (Binary64.isoDurationToHours (VString "PT30M")).
Proof.
  assert (H7 : digit_sequence "7") by (split; [discriminate|reflexivity]).
  assert (H30 : digit_sequence "30") by (split; [discriminate|reflexivity]).
  split; [exact H7|]. split; [exact H30|].
  apply (isoDurationToHours_rounds_below_100h "7" "30" H7 H30); reflexivity.
Defined.

(** C5, beyond the bound: at 2^47 + 1 hours and 20 minutes the sum is
    rounded to a multiple of 2^-5 and its tenfold to a quarter, 3.5 where
    the exact value has 3.33: the parser returns ...329.4, not ...329.3. *)
Lemma isoDurationToHours_rounds_wrong_tenth :
  digit_sequence "140737488355329" /\ digit_sequence "20"
  /\ Binary64.isoDurationToHours (VString "PT140737488355329H20M")
     = Binary64.Returned (tenths 1407374883553294)
  /\ ~ returns_tenth_of
         (inject_Z (decimal_value "140737488355329") + inject_Z (decimal_value "20") / 60)
         (Binary64.isoDurationToHours (VString "PT140737488355329H20M")).
Proof.
  split; [split; [discriminate|reflexivity]|].
  split; [split; [discriminate|reflexivity]|].
  assert (Binary64.isoDurationToHours (VString "PT140737488355329H20M")
          = Binary64.Returned (tenths 1407374883553294)) as E
    by (vm_compute; reflexivity).
  split; [exact E|].
  rewrite E. intros (k & Ek & Bk).
  change (decimal_value "140737488355329") with 140737488355329 in Bk.
  change (decimal_value "20") with 20 in Bk.
  assert (k = 1407374883553293) as ->.
  { destruct Bk as [B1 B2]. unfold Qle, Qlt in B1, B2. cbn in B1, B2. lia. }
  apply (f_equal (fun o => match o with
                           | Binary64.Returned r => r
                           | Binary64.TypeError => 0%float
                           end)) in Ek.
  apply FloatAxioms.Leibniz.eqb_spec in Ek.
  vm_compute in Ek. discriminate Ek.
Qed.

(** *** Signs in double precision *)

Lemma shr_1_nonneg (mrs : shr_record) : 0 <= shr_m mrs -> 0 <= shr_m (shr_1 mrs).
Proof.
  destruct mrs as [m r s]. cbn [shr_m]. intros H.
  destruct m as [|[p|p|]|p]; cbn; lia.
Qed.

Lemma iter_pos_invariant {A} (P : A -> Prop) (f : A -> A) :
  (forall x, P x -> P (f x)) -> forall n x, P x -> P (iter_pos f n x).
Proof.
  intros Hf. induction n as [n IH|n IH|]; intros x Hx; cbn; auto.
Qed.

Lemma shr_fexp_nonneg (m e : Z) (l : location) :
  0 <= m -> 0 <= shr_m (fst (shr_fexp prec emax m e l)).
Proof.
  intros Hm. unfold shr_fexp, shr.
  assert (0 <= shr_m (shr_record_of_loc m l)) as H0.
  { destruct l as [|[| |]]; exact Hm. }
  destruct (fexp prec emax (Zdigits2 m + e) - e); cbn [fst]; try exact H0.
  apply (iter_pos_invariant (fun r => 0 <= shr_m r)); [apply shr_1_nonneg|exact H0].
Qed.

Lemma round_nearest_even_nonneg (m : Z) (l : location) :
  0 <= m -> 0 <= round_nearest_even m l.
Proof.
  intros Hm. destruct l as [|[| |]]; cbn; try lia.
  destruct (Z.even m); lia.
Qed.

Lemma binary_round_aux_nonneg (m e : Z) (l : location) :
  0 <= m -> nonneg_sf (binary_round_aux prec emax false m e l).
Proof.
  intros Hm. unfold binary_round_aux.
  pose proof (shr_fexp_nonneg m e l Hm) as H1.
  destruct (shr_fexp prec emax m e l) as [mrs' e']. cbn [fst] in H1.
  pose proof (shr_fexp_nonneg _ e' loc_Exact
                (round_nearest_even_nonneg _ (loc_of_shr_record mrs') H1)) as H2.
  destruct (shr_fexp prec emax _ e' loc_Exact) as [mrs'' e'']. cbn [fst] in H2.
  destruct (shr_m mrs'') as [|p|p]; [reflexivity| |lia].
  destruct (e'' <=? emax - prec)%Z; reflexivity.
Qed.

Lemma binary_round_nonneg (m : positive) (e : Z) :
  nonneg_sf (binary_round prec emax false m e).
Proof.
  unfold binary_round. destruct (shl_align _ _ _) as [mz ez].
  apply binary_round_aux_nonneg. lia.
Qed.

Lemma binary_normalize_nonneg (m e : Z) :
  0 <= m -> nonneg_sf (binary_normalize prec emax m e false).
Proof.
  intros Hm. destruct m as [|p|p]; [reflexivity|apply binary_round_nonneg|lia].
Qed.

Lemma SFadd_nonneg (x y : spec_float) :
  nonneg_sf x -> nonneg_sf y -> nonneg_sf (SFadd prec emax x y).
Proof.
  destruct x as [sx|sx| |sx mx ex], y as [sy|sy| |sy my ey]; cbn [nonneg_sf];
    intros Hx Hy; subst; try contradiction; try reflexivity.
  cbn [SFadd cond_Zopp]. apply binary_normalize_nonneg. lia.
Qed.

Lemma SFmul_nonneg (x : spec_float) (my : positive) (ey : Z) :
  nonneg_sf x -> nonneg_sf (SFmul prec emax x (S754_finite false my ey)).
Proof.
  destruct x as [sx|sx| |sx mx ex]; cbn [nonneg_sf]; intros Hx; subst;
    try contradiction; try reflexivity.
  cbn [SFmul xorb]. apply binary_round_aux_nonneg. lia.
Qed.

Lemma SFdiv_nonneg (x : spec_float) (my : positive) (ey : Z) :
  nonneg_sf x -> nonneg_sf (SFdiv prec emax x (S754_finite false my ey)).
Proof.
  destruct x as [sx|sx| |sx mx ex]; cbn [nonneg_sf]; intros Hx; subst;
    try contradiction; try reflexivity.
  cbn [SFdiv xorb]. unfold SFdiv_core_binary.
  set (m' := match _ with Z0 => Z.pos mx | Z.pos _ => _ | Z.neg _ => 0 end).
  assert (0 <= m') as Hm'.
  { unfold m'. destruct (_ - _ - _) as [|p|p]; try lia.
    apply Z.shiftl_nonneg. lia. }
  pose proof (Z.div_eucl_eq m' (Z.pos my) ltac:(lia)) as Hq.
  pose proof (Z.mod_pos_bound m' (Z.pos my) ltac:(lia)) as Hr.
  unfold Z.modulo in Hr.
  destruct (Z.div_eucl m' (Z.pos my)) as [q r].
  apply binary_round_aux_nonneg. nia.
Qed.

Lemma nonneg_add (x y : float) : nonneg x -> nonneg y -> nonneg (x + y)%float.
Proof. unfold nonneg. rewrite FloatAxioms.add_spec. apply SFadd_nonneg. Qed.

Lemma nonneg_mul_10 (x : float) : nonneg x -> nonneg (x * 10)%float.
Proof. unfold nonneg. rewrite FloatAxioms.mul_spec. apply SFmul_nonneg. Qed.

Lemma nonneg_div_60 (x : float) : nonneg x -> nonneg (x / 60)%float.
Proof. unfold nonneg. rewrite FloatAxioms.div_spec. apply SFdiv_nonneg. Qed.

Lemma nonneg_div_10 (x : float) : nonneg x -> nonneg (x / 10)%float.
Proof. unfold nonneg. rewrite FloatAxioms.div_spec. apply SFdiv_nonneg. Qed.

Lemma nonneg_SF2Prim (x : spec_float) : nonneg_sf x -> nonneg (SF2Prim x).
Proof.
  unfold nonneg.
  destruct x as [s|s| |s m e]; cbn [nonneg_sf]; intros H; subst; try contradiction;
    try reflexivity.
  cbn [SF2Prim]. rewrite Z_ldexp_spec, of_uint63_spec.
  pose proof (binary_normalize_nonneg (to_Z (of_Z (Z.pos m))) 0
                (proj1 (to_Z_bounded _))) as H.
  destruct (binary_normalize prec emax _ 0 false) as [s'|s'| |s' m' e'];
    cbn [nonneg_sf] in H; subst; try contradiction; try reflexivity.
  cbn [SFldexp]. apply binary_round_nonneg.
Qed.

Lemma nonneg_Number_of_Z (z : Z) : 0 <= z -> nonneg (Binary64.Number_of_Z z).
Proof. intros H. apply nonneg_SF2Prim, binary_normalize_nonneg, H. Qed.

Lemma nonneg_Math_round (y : float) : nonneg y -> nonneg (Binary64.Math_round y).
Proof.
  unfold Binary64.Math_round. intros H. pose proof H as H'. unfold nonneg in H'.
  destruct (Prim2SF y) as [s|s| |s m e]; try exact H.
  cbn [nonneg_sf] in H'. subst s.
  destruct (0 <=? e)%Z eqn:He; [exact H|].
  cbn [andb]. apply nonneg_Number_of_Z.
  apply Z.leb_gt in He.
  apply Z.div_pos; [|apply Z.pow_pos_nonneg; lia].
  pose proof (Z.pow_pos_nonneg 2 (- e)). lia.
Qed.

Lemma nonneg_leb (x : float) : nonneg x -> (0 <=? x)%float = true.
Proof.
  unfold nonneg. rewrite FloatAxioms.leb_spec. change (Prim2SF 0) with (S754_zero false).
  destruct (Prim2SF x) as [s|s| |s m e]; cbn [nonneg_sf]; intros H; subst;
    try contradiction; reflexivity.
Qed.

Lemma nonneg_parseInt (s : string) : nonneg (Binary64.parseInt s).
Proof. apply nonneg_Number_of_Z, parseInt_from_nonneg. lia. Qed.

(** C8. The parser returns for every falsy value (an absent or [null]
    duration, [false], 0, the empty string) and for every string, and
    what it returns is never negative and never [NaN]: exactly 0 for a
    falsy value and for a string that does not begin with "PT".  For any
    other value (a number other than 0, [true], an array, an object) it
    throws a [TypeError]. *)
Theorem isoDurationToHours_returns_or_throws (v : Value) :
  (truthy v = false -> Binary64.isoDurationToHours v = Binary64.Returned 0%float)
  /\ (forall s, v = VString s ->
        exists r, Binary64.isoDurationToHours v = Binary64.Returned r
                  /\ (0 <=? r)%float = true
                  /\ ((forall rest, s <> "PT" ++ rest) -> r = 0%float))
  /\ (truthy v = true -> (forall s, v <> VString s) ->
      Binary64.isoDurationToHours v = Binary64.TypeError).
Proof.
  split; [|split].
  - intros Hf. unfold Binary64.isoDurationToHours. rewrite Hf. reflexivity.
  - intros s ->. unfold Binary64.isoDurationToHours. cbn [truthy].
    destruct (truthy_string s) eqn:Ts; cbn [negb].
    + destruct (startsWith "PT" s) eqn:E; cbn [negb].
      * eexists. split; [reflexivity|]. split.
        -- apply nonneg_leb, nonneg_div_10, nonneg_Math_round, nonneg_mul_10, nonneg_add.
           ++ destruct (match_digits_then "H" s) as [g|]; [|reflexivity].
              destruct (truthy_string g); [apply nonneg_parseInt|reflexivity].
           ++ destruct (match_digits_then "M" s) as [g|]; [|reflexivity].
              destruct (truthy_string g); [apply nonneg_div_60, nonneg_parseInt|reflexivity].
        -- intros Hs. apply startsWith_PT in E as [rest ->]. destruct (Hs rest eq_refl).
      * exists 0%float. split; [reflexivity|]. split; [reflexivity|]. reflexivity.
    + exists 0%float. split; [reflexivity|]. split; reflexivity.
  - intros Ht Hns. unfold Binary64.isoDurationToHours. rewrite Ht. cbn [negb].
    destruct v; try reflexivity. destruct (Hns s eq_refl).
Qed.

(** C8, outside the strings: a provider that sends [duration: 90] makes
    the parser throw. *)
Lemma isoDurationToHours_throws_on_number :
  Binary64.isoDurationToHours (VNumber 90) = Binary64.TypeError
  /\ ~ exists r, Binary64.isoDurationToHours (VNumber 90) = Binary64.Returned r.
Proof.
  assert (Binary64.isoDurationToHours (VNumber 90) = Binary64.TypeError) as E
    by (vm_compute; reflexivity).
  split; [exact E|]. rewrite E. intros [r Hr]. discriminate Hr.
Qed.

End DurationParser.

(** ** The token cache *)

Section TokenCacheProofs.
Local Open Scope string_scope.
Local Open Scope Z_scope.

Lemma valid_at_test (c : TokenCache) (now : Z) :
  valid_at c now <->
  truthy_field truthy_string (token c) && (now <? expiresAt c - 60000) = true.
Proof.
  unfold valid_at, holds_token. rewrite andb_true_iff, Z.ltb_lt.
  split; intros [H1 H2]; split; auto; lia.
Qed.

Lemma not_valid_at_test (c : TokenCache) (now : Z) :
  holds_token c = false \/ expiresAt c - now <= 60000 <->
  truthy_field truthy_string (token c) && (now <? expiresAt c - 60000) = false.
Proof.
  unfold holds_token. rewrite andb_false_iff, Z.ltb_ge.
  split; (intros [H|H]; [left; exact H|right; lia]).
Qed.

(** The no-op path. *)
Lemma getAmadeusToken_hit (e : Env) (w : World) :
  valid_at (tokenCache w) (clock e (clockReads w)) ->
  getAmadeusToken e w = (Normal (token (tokenCache w)), tick w).
Proof.
  intros H. apply valid_at_test in H.
  unfold getAmadeusToken, bind, Date_now, get_tokenCache. cbn.
  rewrite H. reflexivity.
Qed.

(** The refresh path, with every way the exchange can end. *)
Lemma getAmadeusToken_miss (e : Env) (w : World) :
  holds_token (tokenCache w) = false
  \/ expiresAt (tokenCache w) - clock e (clockReads w) <= 60000 ->
  getAmadeusToken e w =
  let req := oauthRequest (process_env e) in
  let w1 := sending req (tick w) in
  match tokenService e (sent w) req with
  | Rejected reason => (Throw reason, w1)
  | Resolved resp =>
      if ok resp then
        match json resp with
        | inl msg => (Throw msg, w1)
        | inr data =>
            (Normal (access_token data),
             caching {| token := access_token data;
                        expiresAt := clock e (S (clockReads w))
                                     + or_Z (expires_in data) 0 * 1000 |}
                     (tick w1))
        end
      else (Throw ("Amadeus OAuth failed: " ++ text resp), w1)
  end.
Proof.
  intros H. apply not_valid_at_test in H.
  unfold getAmadeusToken, bind, Date_now, get_tokenCache, get_env, fetch. cbn.
  rewrite H. cbn. fold (oauthRequest (process_env e)).
  destruct (tokenService e (sent w) (oauthRequest (process_env e))) as [reason|resp];
    [reflexivity|].
  destruct (ok resp); cbn; [|reflexivity].
  unfold resp_json. destruct (json resp) as [msg|data]; reflexivity.
Qed.

(** Once the slot is not valid at some instant it stays so at every later
    one, as long as nothing overwrites it. *)
Lemma miss_persists (c : TokenCache) (now later : Z) :
  holds_token c = false \/ expiresAt c - now <= 60000 ->
  now <= later ->
  holds_token c = false \/ expiresAt c - later <= 60000.
Proof.
  intros [H|H] Hle; [left; exact H|right; lia].
Qed.

Lemma miss_sends_once (e : Env) (w : World) :
  holds_token (tokenCache w) = false
  \/ expiresAt (tokenCache w) - clock e (clockReads w) <= 60000 ->
  sent (snd (getAmadeusToken e w)) = (sent w ++ [oauthRequest (process_env e)])%list.
Proof.
  intros H. rewrite (getAmadeusToken_miss e w H). cbv zeta.
  destruct (tokenService e (sent w) (oauthRequest (process_env e))) as [reason|resp];
    [reflexivity|].
  destruct (ok resp); [|reflexivity].
  destruct (json resp); reflexivity.
Qed.

(** C1. On every access: when a token is cached and the clock reads more
    than 60 seconds before the recorded expiry, the cached token is
    returned, nothing is sent, and token and expiry keep their values.
    Otherwise (no token cached, or at or past the margin) exactly one call
    is sent, the credential exchange; when it succeeds the slot holds the
    new token with the expiry computed from the declared lifetime, and the
    new token is returned. *)
Theorem getAmadeusToken_access (e : Env) (w : World) :
  let now := clock e (clockReads w) in
  let c := tokenCache w in
  (valid_at c now ->
     exists w',
       getAmadeusToken e w = (Normal (token c), w')
       /\ sent w' = sent w
       /\ tokenCache w' = c)
  /\ (holds_token c = false \/ expiresAt c - now <= 60000 ->
      exists out w' req,
        getAmadeusToken e w = (out, w')
        /\ isTokenRequest req = true
        /\ sent w' = (sent w ++ [req])%list
        /\ (forall resp data,
              tokenService e (sent w) req = Resolved resp ->
              ok resp = true ->
              json resp = inr data ->
              out = Normal (access_token data)
              /\ token (tokenCache w') = access_token data
              /\ expiresAt (tokenCache w')
                 = clock e (S (clockReads w)) + or_Z (expires_in data) 0 * 1000)).
Proof.
  intros now c. split.
  - intros Hv. exists (tick w). rewrite (getAmadeusToken_hit e w Hv).
    repeat split.
  - intros Hm.
    exists (fst (getAmadeusToken e w)), (snd (getAmadeusToken e w)),
      (oauthRequest (process_env e)).
    split; [apply surjective_pairing|]. split; [reflexivity|].
    split; [apply miss_sends_once, Hm|].
    intros resp data Hs Hok Hj.
    rewrite (getAmadeusToken_miss e w Hm). cbv zeta.
    rewrite Hs, Hok, Hj. repeat split.
Qed.

Lemma getAmadeusToken_access_witness :
  (* a cold cache: one exchange, the new token cached and returned *)
  (exists w',
     getAmadeusToken (Sample.env (Val 1799)) Sample.world0 = (Normal (Val "tok"), w')
     /\ sent w' = [oauthRequest Sample.penv]
     /\ tokenCache w' = {| token := Val "tok"; expiresAt := 1748764801000 + 1799000 |})
  /\
  (* a warm cache: nothing sent, nothing changed *)
  (let w := caching {| token := Val "old"; expiresAt := 1748764800000 + 60001 |}
              Sample.world0 in
   exists w',
     getAmadeusToken (Sample.env (Val 1799)) w = (Normal (Val "old"), w')
     /\ sent w' = [] /\ tokenCache w' = tokenCache w).
Proof.
  split.
  - destruct (getAmadeusToken_access (Sample.env (Val 1799)) Sample.world0) as [_ Hmiss].
    destruct Hmiss as (out & w' & req & Hrun & _ & _ & _); [left; reflexivity|].
    exists w'. vm_compute in Hrun. injection Hrun as <- <-. repeat split.
  - intros w.
    destruct (getAmadeusToken_access (Sample.env (Val 1799)) w) as [Hhit _].
    destruct Hhit as (w' & Hrun & Hsent & Hcache); [split; [reflexivity|vm_compute; reflexivity]|].
    exists w'. repeat split; assumption.
Defined.

(** C4. When the credential exchange answers with a non-success status,
    [getAmadeusToken] throws an error whose message ends with the raw
    response body, and the slot keeps both its token and its expiry; so an
    access that follows, the clock not having run backwards, sends the
    exchange again. *)
Theorem getAmadeusToken_refused (e : Env) (w : World) (resp : FetchResponse TokenData) :
  holds_token (tokenCache w) = false
  \/ expiresAt (tokenCache w) - clock e (clockReads w) <= 60000 ->
  tokenService e (sent w) (oauthRequest (process_env e)) = Resolved resp ->
  ok resp = false ->
  exists w',
    getAmadeusToken e w = (Throw ("Amadeus OAuth failed: " ++ text resp), w')
    /\ token (tokenCache w') = token (tokenCache w)
    /\ expiresAt (tokenCache w') = expiresAt (tokenCache w)
    /\ forall w2,
         tokenCache w2 = tokenCache w' ->
         clock e (clockReads w) <= clock e (clockReads w2) ->
         sent (snd (getAmadeusToken e w2))
         = (sent w2 ++ [oauthRequest (process_env e)])%list.
Proof.
  intros Hm Hs Hok.
  exists (sending (oauthRequest (process_env e)) (tick w)).
  rewrite (getAmadeusToken_miss e w Hm). cbv zeta. rewrite Hs, Hok.
  repeat split.
  intros w2 Hc Hle. apply miss_sends_once.
  rewrite Hc. cbn [tokenCache sending tick].
  exact (miss_persists _ _ _ Hm Hle).
Qed.

Lemma getAmadeusToken_refused_witness :
  exists w',
    getAmadeusToken Sample.env_refusing Sample.world0
    = (Throw "Amadeus OAuth failed: invalid_client", w')
    /\ tokenCache w' = tokenCache0
    /\ sent (snd (getAmadeusToken Sample.env_refusing w'))
       = (sent w' ++ [oauthRequest Sample.penv])%list.
Proof.
  destruct (getAmadeusToken_refused Sample.env_refusing Sample.world0
              {| status := 401; text := "invalid_client"; json := inl "unused" |})
    as (w' & Hrun & Htok & Hexp & Hretry).
  - left. reflexivity.
  - reflexivity.
  - reflexivity.
  - exists w'. split; [exact Hrun|]. split.
    + destruct (tokenCache w') as [t x]. cbn in Htok, Hexp. subst. reflexivity.
    + apply Hretry; [reflexivity|].
      vm_compute in Hrun. injection Hrun as <-. vm_compute. discriminate.
Defined.

(** C10. When a successful credential exchange declares no lifetime, the
    recorded expiry is the refresh instant itself.  From 60 seconds before
    that instant on, the cached token is never valid, so every access that
    finds it in the slot sends a new credential exchange. *)
Theorem getAmadeusToken_no_lifetime (e : Env) (w : World)
    (resp : FetchResponse TokenData) (data : TokenData) :
  holds_token (tokenCache w) = false
  \/ expiresAt (tokenCache w) - clock e (clockReads w) <= 60000 ->
  tokenService e (sent w) (oauthRequest (process_env e)) = Resolved resp ->
  ok resp = true ->
  json resp = inr data ->
  expires_in data = Undefined ->
  let refreshed := clock e (S (clockReads w)) in
  exists w',
    getAmadeusToken e w = (Normal (access_token data), w')
    /\ tokenCache w' = {| token := access_token data; expiresAt := refreshed |}
    /\ (forall now, refreshed - 60000 <= now -> ~ valid_at (tokenCache w') now)
    /\ forall w2,
         tokenCache w2 = tokenCache w' ->
         refreshed - 60000 <= clock e (clockReads w2) ->
         sent (snd (getAmadeusToken e w2))
         = (sent w2 ++ [oauthRequest (process_env e)])%list.
Proof.
  intros Hm Hs Hok Hj Hx refreshed.
  eexists. rewrite (getAmadeusToken_miss e w Hm). cbv zeta.
  rewrite Hs, Hok, Hj, Hx. cbn [or_Z]. rewrite Z.add_0_r.
  split; [reflexivity|]. split; [reflexivity|].
  cbn [tokenCache caching]. split.
  - intros now Hnow [_ Hv]. cbn [expiresAt] in Hv. fold refreshed in Hv. lia.
  - intros w2 Hc Hnow. apply miss_sends_once. right.
    rewrite Hc. cbn [expiresAt]. fold refreshed. lia.
Qed.

Lemma getAmadeusToken_no_lifetime_witness :
  exists w',
    getAmadeusToken (Sample.env Undefined) Sample.world0 = (Normal (Val "tok"), w')
    /\ tokenCache w' = {| token := Val "tok"; expiresAt := 1748764801000 |}
    /\ sent (snd (getAmadeusToken (Sample.env Undefined) w'))
       = (sent w' ++ [oauthRequest Sample.penv])%list.
Proof.
  destruct (getAmadeusToken_no_lifetime (Sample.env Undefined) Sample.world0
              {| status := 200; text := "";
                 json := inr {| access_token := Val "tok"; expires_in := Undefined |} |}
              {| access_token := Val "tok"; expires_in := Undefined |})
    as (w' & Hrun & Hcache & _ & Hagain).
  - left. reflexivity.
  - reflexivity.
  - reflexivity.
  - reflexivity.
  - reflexivity.
  - exists w'. split; [exact Hrun|]. split; [exact Hcache|].
    apply Hagain; [reflexivity|].
    vm_compute in Hrun. injection Hrun as <-. vm_compute. discriminate.
Defined.

End TokenCacheProofs.

(** ** The offer normalizer *)

Section Normalizer.

Context {A : Type} (eq_dec : forall x y : A, {x = y} + {x <> y}).

Lemma filter_absorbs_remove (acc : list A) (x : A) (l : list A) :
  Set_has eq_dec acc x = true ->
  filter (fun y => negb (Set_has eq_dec acc y)) (remove eq_dec x l)
  = filter (fun y => negb (Set_has eq_dec acc y)) l.
Proof.
  intros Hx. induction l as [|y l IH]; [reflexivity|].
  cbn [remove]. destruct (eq_dec x y) as [->|Hne].
  - cbn [filter]. rewrite Hx. exact IH.
  - cbn [filter]. rewrite IH. reflexivity.
Qed.

Lemma Set_has_snoc (acc : list A) (x y : A) :
  Set_has eq_dec (acc ++ [x]) y
  = Set_has eq_dec acc y || (if eq_dec x y then true else false).
Proof.
  unfold Set_has.
  destruct (in_dec eq_dec y (acc ++ [x])) as [Hin|Hout];
    destruct (in_dec eq_dec y acc) as [Hin'|Hout'];
    destruct (eq_dec x y) as [E|N]; try reflexivity; exfalso.
  - apply in_app_or in Hin as [H|[H|[]]]; auto.
  - apply Hout, in_or_app. left. exact Hin'.
  - apply Hout, in_or_app. left. exact Hin'.
  - apply Hout, in_or_app. right. left. exact E.
Qed.

Lemma filter_snoc_remove (acc : list A) (x : A) (l : list A) :
  filter (fun y => negb (Set_has eq_dec (acc ++ [x]) y)) l
  = filter (fun y => negb (Set_has eq_dec acc y)) (remove eq_dec x l).
Proof.
  induction l as [|y l IH]; [reflexivity|].
  cbn [filter remove]. rewrite Set_has_snoc, IH.
  destruct (eq_dec x y) as [E|N].
  - rewrite orb_true_r. reflexivity.
  - rewrite orb_false_r. cbn [filter]. reflexivity.
Qed.

Lemma fold_Set_add (l acc : list A) :
  fold_left (Set_add eq_dec) l acc
  = acc ++ filter (fun y => negb (Set_has eq_dec acc y)) (first_occurrences eq_dec l).
Proof.
  revert acc. induction l as [|x l IH]; intros acc.
  - cbn. rewrite app_nil_r. reflexivity.
  - cbn [fold_left first_occurrences filter]. unfold Set_add at 2.
    destruct (Set_has eq_dec acc x) eqn:Hx; cbn [negb].
    + rewrite IH, filter_absorbs_remove by exact Hx. reflexivity.
    + rewrite IH, <- app_assoc, filter_snoc_remove. reflexivity.
Qed.

(** [new Set] keeps the first occurrence of every element, in order. *)
Lemma new_Set_first_occurrences (l : list A) :
  new_Set eq_dec l = first_occurrences eq_dec l.
Proof.
  unfold new_Set. rewrite fold_Set_add. cbn [app].
  assert (Ht : forall y, negb (Set_has eq_dec [] y) = true) by reflexivity.
  induction (first_occurrences eq_dec l) as [|y r IH]; [reflexivity|].
  cbn [filter]. rewrite Ht, IH. reflexivity.
Qed.

End Normalizer.

Section NormalizerProofs.

Lemma present_truthy (c : option string) : truthy_opt truthy_string c = present c.
Proof. destruct c as [[|a s]|]; reflexivity. Qed.

Lemma carrierCodes_spec (offer : option Raw.Offer) :
  carrierCodes offer = filter present (segment_carriers offer).
Proof.
  unfold carrierCodes, segment_carriers.
  rewrite (filter_ext _ _ present_truthy), flat_map_concat_map.
  replace (or_nil (chain offer Raw.itineraries)) with (itineraries_of offer)
    by (destruct offer; reflexivity).
  do 2 f_equal. apply map_ext. intros it.
  replace (or_nil (chain it Raw.segments)) with (segments_of it)
    by (destruct it; reflexivity).
  apply map_ext. intros s. destruct s; reflexivity.
Qed.

Lemma filter_all (f : option string -> bool) (l : list (option string)) :
  forallb f l = true -> filter f l = l.
Proof.
  induction l as [|x l IH]; [reflexivity|].
  cbn. intros H. apply andb_true_iff in H as [Hx Hl].
  rewrite Hx, (IH Hl). reflexivity.
Qed.

(** C2 (as the code has it). The normalized airlines field is the offer's
    validating-airline codes, taken as they are, followed by every
    segment's carrier code across all itineraries with the empty and absent
    ones dropped, de-duplicated keeping the order of first occurrence.
    Where no validating code is empty or absent this is the list with both
    sources filtered. *)
Theorem normalizeOffer_airlines (currency : field string) (offer : option Raw.Offer) :
  Out.airlines (normalizeOffer currency offer) = airlines_carriers_filtered offer
  /\ (forallb present (validating_codes offer) = true ->
      Out.airlines (normalizeOffer currency offer) = airlines_both_filtered offer).
Proof.
  assert (Out.airlines (normalizeOffer currency offer) = airlines_carriers_filtered offer)
    as Hcode.
  { unfold normalizeOffer, airlines_carriers_filtered. cbn [Out.airlines].
    rewrite new_Set_first_occurrences, carrierCodes_spec.
    replace (or_nil (chain offer Raw.validatingAirlineCodes)) with (validating_codes offer)
      by (destruct offer; reflexivity).
    reflexivity. }
  split; [exact Hcode|].
  intros Hall. rewrite Hcode. unfold airlines_carriers_filtered, airlines_both_filtered.
  rewrite (filter_all _ _ Hall). reflexivity.
Qed.

(** C2 as stated fails: an empty validating code is kept. *)
Lemma normalizeOffer_airlines_keeps_empty_code :
  Out.airlines (normalizeOffer (Val "EUR"%string) Sample.offer_with_empty_code)
  = [Some ""%string; Some "LH"%string]
  /\ airlines_both_filtered Sample.offer_with_empty_code = [Some "LH"%string]
  /\ Out.airlines (normalizeOffer (Val "EUR"%string) Sample.offer_with_empty_code)
     <> airlines_both_filtered Sample.offer_with_empty_code.
Proof.
  split; [reflexivity|]. split; [reflexivity|].
  intros H. vm_compute in H. discriminate H.
Qed.




End NormalizerProofs.

(** ** The request handler *)

Section Handler.
Local Open Scope string_scope.
Local Open Scope Z_scope.

Lemma withCORS_run (res : Response) (origin : option string) (e : Env) (w : World) :
  withCORS res origin e w = (Normal (cors (process_env e) res origin), w).
Proof. reflexivity. Qed.

Lemma cors_keeps (penv : ProcessEnv) (res : Response) (origin : option string) :
  statusCode (cors penv res origin) = statusCode res
  /\ body (cors penv res origin) = body res.
Proof.
  unfold cors. destruct origin as [o|]; [|split; reflexivity].
  destruct (truthy_string o && existsb _ _); split; reflexivity.
Qed.

(** The handler's decision tree, for a request whose JSON body parses. *)
Lemma POST_run (request : HttpRequest) (b : Req.Body) (e : Env) (w : World) :
  json_body request = inr b ->
  POST request e w =
  let o := header_origin request in
  let penv := process_env e in
  if negb (validated b) then (Normal (cors penv missing_fields o), w)
  else if negb (in_DACH (normalized_code (Req.origin b)))
  then (Normal (cors penv origin_not_allowed o), w)
  else
    match getAmadeusToken e w with
    | (Throw msg, w1) => (Normal (cors penv (server_error msg) o), w1)
    | (Normal token, w1) =>
        let req := offerRequest penv b token in
        let w2 := sending req w1 in
        match offerService e (sent w1) req with
        | Rejected reason => (Normal (cors penv (server_error reason) o), w2)
        | Resolved resp =>
            if ok resp then
              match json resp with
              | inl msg => (Normal (cors penv (server_error msg) o), w2)
              | inr data =>
                  (Normal (cors penv (search_result b data (clock e (clockReads w2))) o),
                   tick w2)
              end
            else if status_accepted (status resp) then
              (Normal (cors penv (upstream_error (text resp) (status resp)) o), w2)
            else
              (Normal (cors penv (server_error (responseError e (status resp))) o), w2)
        end
    end.
Proof.
  intros Hb. cbv zeta.
  unfold POST, try_catch, bind at 1, request_json. rewrite Hb. cbn [ret].
  unfold validated.
  destruct (bad (Req.origin b)); [reflexivity|].
  destruct (bad (Req.destination b)); [reflexivity|].
  destruct (bad (Req.departDate b)); [reflexivity|].
  destruct (truthy_field truthy_Z (default (Req.adults b) 1)); [|reflexivity].
  cbn [negb orb andb].
  fold (normalized_code (Req.origin b)). fold (normalized_code (Req.destination b)).
  fold (in_DACH (normalized_code (Req.origin b))).
  destruct (in_DACH (normalized_code (Req.origin b))); [|reflexivity].
  cbn [negb]. unfold bind at 1.
  destruct (getAmadeusToken e w) as [[token|msg] w1]; [|reflexivity].
  unfold bind, get_env, fetch. cbn.
  match goal with
  | |- context [offerService e (sent w1) ?r] =>
      change r with (offerRequest (process_env e) b token)
  end.
  destruct (offerService e (sent w1) (offerRequest (process_env e) b token))
    as [reason|resp]; [reflexivity|].
  destruct (ok resp); cbn [negb].
  - unfold resp_json. destruct (json resp) as [msg|[d|]]; reflexivity.
  - unfold NextResponse_json. destruct (status_accepted (status resp)); reflexivity.
Qed.

Lemma POST_unparsed (request : HttpRequest) (msg : string) (e : Env) (w : World) :
  json_body request = inl msg ->
  POST request e w
  = (Normal (cors (process_env e) (server_error msg) (header_origin request)), w).
Proof.
  intros Hb. unfold POST, try_catch, bind at 1, request_json. rewrite Hb. reflexivity.
Qed.

(** A success answer comes from exactly one path through the handler. *)
Lemma POST_success (request : HttpRequest) (e : Env) (w : World)
    (res : Response) (w' : World)
    (q : QueryEcho) (t : Z) (n : nat) (rs : list Out.Offer) :
  POST request e w = (Normal res, w') ->
  body res = SearchResult q t n rs ->
  exists b token w1 resp data,
    json_body request = inr b
    /\ validated b = true
    /\ in_DACH (normalized_code (Req.origin b)) = true
    /\ getAmadeusToken e w = (Normal token, w1)
    /\ offerService e (sent w1) (offerRequest (process_env e) b token) = Resolved resp
    /\ ok resp = true
    /\ json resp = inr data
    /\ res = cors (process_env e) (search_result b data (clock e (clockReads w1)))
               (header_origin request)
    /\ w' = tick (sending (offerRequest (process_env e) b token) w1).
Proof.
  intros Hrun Hbody.
  destruct (json_body request) as [msg|b] eqn:Hb.
  - rewrite (POST_unparsed request msg e w Hb) in Hrun. injection Hrun as <- <-.
    rewrite (proj2 (cors_keeps _ _ _)) in Hbody. discriminate.
  - rewrite (POST_run request b e w Hb) in Hrun. cbv zeta in Hrun.
    destruct (validated b) eqn:Hv; cbn [negb] in Hrun.
    2:{ injection Hrun as <- <-. rewrite (proj2 (cors_keeps _ _ _)) in Hbody. discriminate. }
    destruct (in_DACH (normalized_code (Req.origin b))) eqn:Hd; cbn [negb] in Hrun.
    2:{ injection Hrun as <- <-. rewrite (proj2 (cors_keeps _ _ _)) in Hbody. discriminate. }
    destruct (getAmadeusToken e w) as [[token|msg] w1] eqn:Hg.
    2:{ injection Hrun as <- <-. rewrite (proj2 (cors_keeps _ _ _)) in Hbody. discriminate. }
    destruct (offerService e (sent w1) (offerRequest (process_env e) b token))
      as [reason|resp] eqn:Hs.
    { injection Hrun as <- <-. rewrite (proj2 (cors_keeps _ _ _)) in Hbody. discriminate. }
    destruct (ok resp) eqn:Hok.
    2:{ destruct (status_accepted (status resp)); injection Hrun as <- <-;
        rewrite (proj2 (cors_keeps _ _ _)) in Hbody; discriminate. }
    destruct (json resp) as [msg|data] eqn:Hj.
    { injection Hrun as <- <-. rewrite (proj2 (cors_keeps _ _ _)) in Hbody. discriminate. }
    injection Hrun as <- <-.
    exists b, token, w1, resp, data. repeat split; auto.
Qed.

Lemma filterByMaxFlightHours_positive (h : Q) (items : list Out.Offer) :
  (0 < h)%Q ->
  filterByMaxFlightHours (Val h) items
  = filter (fun x => Qle_bool (Out.totalDurationHours x) h) items.
Proof.
  intros Hh. unfold filterByMaxFlightHours, truthy_Q.
  destruct (Qeq_bool h 0) eqn:E0.
  - apply Qeq_bool_eq in E0. lra.
  - destruct (Qle_bool h 0) eqn:E1; [|reflexivity].
    apply Qle_bool_iff in E1. lra.
Qed.

Lemma filterByMaxFlightHours_off (mfh : field Q) (items : list Out.Offer) :
  mfh = Undefined \/ mfh = Null \/ (exists h, mfh = Val h /\ (h <= 0)%Q) ->
  filterByMaxFlightHours mfh items = items.
Proof.
  intros [->|[->|(h & -> & Hh)]]; try reflexivity.
  unfold filterByMaxFlightHours.
  apply Qle_bool_iff in Hh. rewrite Hh, andb_false_r. reflexivity.
Qed.

(** C3. Whenever the handler gets as far as filtering (it then answers
    with the result envelope): with a positive [maxFlightHours] a
    normalized offer is among the results exactly when it is one of the
    normalized offers of the provider's answer and its
    [totalDurationHours] is at most [maxFlightHours]; with [maxFlightHours]
    omitted, [null], zero or negative the results are all the normalized
    offers. *)
Theorem POST_maxFlightHours_filter (request : HttpRequest) (e : Env) (w : World)
    (res : Response) (w' : World)
    (q : QueryEcho) (t : Z) (n : nat) (rs : list Out.Offer) :
  POST request e w = (Normal res, w') ->
  body res = SearchResult q t n rs ->
  exists b token w1 resp data,
    json_body request = inr b
    /\ getAmadeusToken e w = (Normal token, w1)
    /\ offerService e (sent w1) (offerRequest (process_env e) b token) = Resolved resp
    /\ json resp = inr data
    /\ (forall h, Req.maxFlightHours b = Val h -> (0 < h)%Q ->
        forall x, In x rs <->
                  In x (items_of b data) /\ (Out.totalDurationHours x <= h)%Q)
    /\ (Req.maxFlightHours b = Undefined \/ Req.maxFlightHours b = Null
        \/ (exists h, Req.maxFlightHours b = Val h /\ (h <= 0)%Q) ->
        rs = items_of b data).
Proof.
  intros Hrun Hbody.
  destruct (POST_success _ _ _ _ _ _ _ _ _ Hrun Hbody)
    as (b & token & w1 & resp & data & Hb & _ & _ & Hg & Hs & _ & Hj & Hres & _).
  exists b, token, w1, resp, data.
  rewrite Hres, (proj2 (cors_keeps _ _ _)) in Hbody.
  unfold search_result in Hbody. cbn [body json_response] in Hbody.
  injection Hbody as _ _ _ Hrs.
  split; [exact Hb|]. split; [exact Hg|]. split; [exact Hs|]. split; [exact Hj|].
  split.
  - intros h Hm Hpos x.
    rewrite <- Hrs, Hm, (filterByMaxFlightHours_positive h _ Hpos), filter_In,
      Qle_bool_iff.
    reflexivity.
  - intros Hoff. rewrite <- Hrs. apply filterByMaxFlightHours_off, Hoff.
Qed.

Lemma POST_maxFlightHours_filter_witness :
  exists res w' q t n rs,
    POST (Sample.search "FRA" "JFK" (Val 2) (Val 17%Q)) (Sample.env (Val 1799))
      Sample.world0 = (Normal res, w')
    /\ body res = SearchResult q t n rs
    /\ map Out.totalDurationHours rs = [16.6%Q; 8.8%Q]
    /\ exists b data,
         map Out.totalDurationHours (items_of b data) = [16.6%Q; 26.1%Q; 8.8%Q]
         /\ forall x, In x rs <->
                      In x (items_of b data) /\ (Out.totalDurationHours x <= 17)%Q.
Proof.
  destruct (POST (Sample.search "FRA" "JFK" (Val 2) (Val 17%Q)) (Sample.env (Val 1799))
              Sample.world0) as [[res|msg] w'] eqn:Hrun;
    [|vm_compute in Hrun; discriminate Hrun].
  destruct (body res) as [| |q t n rs] eqn:Hbody;
    [vm_compute in Hrun; injection Hrun as <- <-; discriminate Hbody
    |vm_compute in Hrun; injection Hrun as <- <-; discriminate Hbody|].
  exists res, w', q, t, n, rs.
  split; [reflexivity|]. split; [exact Hbody|].
  destruct (POST_maxFlightHours_filter _ _ _ _ _ _ _ _ _ Hrun Hbody)
    as (b & token & w1 & resp & data & Hb & Hg & Hs & Hj & Hpos & _).
  injection Hb as <-.
  split.
  - vm_compute in Hrun. injection Hrun as <- <-. injection Hbody as <- <- <- <-.
    reflexivity.
  - exists (match json_body (Sample.search "FRA" "JFK" (Val 2) (Val 17%Q)) with
            | inr b => b
            | inl _ => {| Req.origin := Null; Req.destination := Null;
                          Req.departDate := Null; Req.returnDate := Null;
                          Req.adults := Null; Req.currency := Null;
                          Req.maxFlightHours := Null |}
            end), data.
    split.
    + vm_compute in Hg. injection Hg as <- <-.
      vm_compute in Hs. injection Hs as <-.
      vm_compute in Hj. injection Hj as <-. reflexivity.
    + apply Hpos; [reflexivity|reflexivity].
Defined.

(** C7 (as the code has it). For every request with a parsed body whose
    normalized origin code is not in the DACH list, whatever its
    destination: the answer has status 400, nothing is sent (neither the
    credential exchange nor the offer search) and the token cache is
    untouched.  Its body is [{error: "Origin not allowed (DACH only)"}]
    when the required fields pass validation, and
    [{error: "Missing required fields"}] when they do not. *)
Theorem POST_origin_not_allowed (request : HttpRequest) (b : Req.Body)
    (e : Env) (w : World) :
  json_body request = inr b ->
  in_DACH (normalized_code (Req.origin b)) = false ->
  exists res w',
    POST request e w = (Normal res, w')
    /\ statusCode res = 400
    /\ sent w' = sent w
    /\ tokenCache w' = tokenCache w
    /\ body res
       = ErrorBody (if validated b
                    then "Origin not allowed (DACH only)"
                    else "Missing required fields") None.
Proof.
  intros Hb Hd. rewrite (POST_run request b e w Hb). cbv zeta. rewrite Hd.
  destruct (validated b); cbn [negb]; eexists; exists w;
    (split; [reflexivity|]);
    rewrite (proj1 (cors_keeps _ _ _)), (proj2 (cors_keeps _ _ _));
    repeat split.
Qed.

Lemma POST_origin_not_allowed_witness :
  exists res w',
    POST (Sample.search "jfk" "FRA" (Val 2) Undefined) (Sample.env (Val 1799))
      Sample.world0 = (Normal res, w')
    /\ statusCode res = 400
    /\ sent w' = []
    /\ tokenCache w' = tokenCache0
    /\ body res = ErrorBody "Origin not allowed (DACH only)" None.
Proof.
  exact (POST_origin_not_allowed
           (Sample.search "jfk" "FRA" (Val 2) Undefined)
           {| Req.origin := Val "jfk"; Req.destination := Val "FRA";
              Req.departDate := Val "2025-06-01"; Req.returnDate := Undefined;
              Req.adults := Val 2; Req.currency := Undefined;
              Req.maxFlightHours := Undefined |}
           (Sample.env (Val 1799)) Sample.world0 eq_refl eq_refl).
Defined.

(** C7 as stated fails: with a blank destination the origin "JFK", which
    is not in the list, is answered with the validation error. *)
Lemma POST_origin_not_allowed_blank_destination :
  in_DACH (normalized_code (Val "JFK")) = false
  /\ exists res w',
       POST (Sample.search "JFK" "" (Val 2) Undefined) (Sample.env (Val 1799))
         Sample.world0 = (Normal res, w')
       /\ body res = ErrorBody "Missing required fields" None
       /\ body res <> ErrorBody "Origin not allowed (DACH only)" None.
Proof.
  split; [reflexivity|].
  eexists. eexists. split; [vm_compute; reflexivity|].
  split; [reflexivity|discriminate].
Qed.

Lemma clamped_adults_range (b : Req.Body) : 1 <= clamped_adults b <= 9.
Proof. unfold clamped_adults. lia. Qed.

Lemma toUpperCase_length (s : string) : String.length (toUpperCase s) = String.length s.
Proof.
  induction s as [|c s IH]; [reflexivity|]. cbn. rewrite IH. reflexivity.
Qed.

Lemma slice0_length (n : nat) (s : string) :
  String.length (slice0 n s) = Nat.min n (String.length s).
Proof.
  unfold slice0. revert s. induction n as [|n IH]; intros [|c s]; cbn; try reflexivity.
  rewrite IH. reflexivity.
Qed.

Lemma upperChar_capital (c : ascii) : upperChar c = capital c.
Proof. destruct c as [[] [] [] [] [] [] [] []]; reflexivity. Qed.

Lemma get_toUpperCase (i : nat) (s : string) :
  String.get i (toUpperCase s) = option_map upperChar (String.get i s).
Proof.
  revert i. induction s as [|c s IH]; intros [|i]; cbn [toUpperCase String.get option_map];
    try reflexivity.
  apply IH.
Qed.

Lemma get_slice0 (n i : nat) (s : string) :
  (i < n)%nat -> String.get i (slice0 n s) = String.get i s.
Proof.
  unfold slice0. revert i s. induction n as [|n IH]; intros i s Hi; [lia|].
  destruct s as [|c s]; [reflexivity|].
  destruct i as [|i]; cbn [String.substring String.get]; [reflexivity|].
  apply IH. lia.
Qed.

Lemma normalized_code_spec (s : string) : normalized_to s (normalized_code (Val s)).
Proof.
  unfold normalized_to, normalized_code, String_of_field, id. split.
  - rewrite slice0_length, toUpperCase_length. reflexivity.
  - intros i c Hi Hc.
    rewrite (get_slice0 3 i _ Hi), get_toUpperCase, Hc. cbn [option_map].
    rewrite upperChar_capital. reflexivity.
Qed.

Lemma validated_strings (b : Req.Body) :
  validated b = true ->
  exists o d, Req.origin b = Val o /\ Req.destination b = Val d.
Proof.
  unfold validated. rewrite !andb_true_iff, !negb_true_iff.
  intros [[[Ho Hd] _] _].
  destruct (Req.origin b) as [| |o]; try discriminate Ho.
  destruct (Req.destination b) as [| |d]; try discriminate Hd.
  exists o, d. split; reflexivity.
Qed.

(** C9. In every success envelope [query.origin] and [query.destination]
    are the codes the offer search was sent with, and for an ASCII origin
    or destination that code is the text in upper case cut to its first
    three characters; [query.adults] and [query.currency] are the request
    body's own values (the defaults 1 and "EUR" when the body has none),
    while the offer search, the last call sent, carries the adult count
    clamped into 1..9.  So the two can differ: for origin "frankfurt" and
    adults = 20 the envelope says "FRA" and 20, and the provider was asked
    for 9. *)
Theorem POST_query_echo :
  (forall (request : HttpRequest) (e : Env) (w : World) (res : Response) (w' : World)
          (q : QueryEcho) (t : Z) (n : nat) (rs : list Out.Offer),
      POST request e w = (Normal res, w') ->
      body res = SearchResult q t n rs ->
      exists b o d,
        json_body request = inr b
        /\ Req.origin b = Val o
        /\ Req.destination b = Val d
        /\ (all_ascii o = true -> normalized_to o (q_origin q))
        /\ (all_ascii d = true -> normalized_to d (q_destination q))
        /\ q_adults q = default (Req.adults b) 1
        /\ q_currency q = default (Req.currency b) "EUR"
        /\ (forall a, Req.adults b = Val a -> q_adults q = Val a)
        /\ (forall c, Req.currency b = Val c -> q_currency q = Val c)
        /\ exists before req,
             sent w' = (before ++ [req])%list
             /\ param "originLocationCode" req = Some (q_origin q)
             /\ param "destinationLocationCode" req = Some (q_destination q)
             /\ param "adults" req = Some (String_of_Z (clamped_adults b))
             /\ 1 <= clamped_adults b <= 9)
  /\ (exists res w' q t n rs before req,
        POST (Sample.search "frankfurt" "jfk airport" (Val 20) Undefined)
          (Sample.env (Val 1799)) Sample.world0 = (Normal res, w')
        /\ body res = SearchResult q t n rs
        /\ q_origin q = "FRA"
        /\ q_destination q = "JFK"
        /\ q_adults q = Val 20
        /\ sent w' = (before ++ [req])%list
        /\ param "adults" req = Some "9").
Proof.
  split.
  - intros request e w res w' q t n rs Hrun Hbody.
    destruct (POST_success _ _ _ _ _ _ _ _ _ Hrun Hbody)
      as (b & token & w1 & resp & data & Hb & Hv & _ & _ & _ & _ & _ & Hres & Hw).
    destruct (validated_strings b Hv) as (o & d & Ho & Hd).
    exists b, o, d.
    rewrite Hres, (proj2 (cors_keeps _ _ _)) in Hbody.
    unfold search_result in Hbody. cbn [body json_response] in Hbody.
    injection Hbody as Hq _ _ _. subst q. cbn [q_origin q_destination q_adults q_currency].
    split; [exact Hb|]. split; [exact Ho|]. split; [exact Hd|].
    split; [intros _; rewrite Ho; apply normalized_code_spec|].
    split; [intros _; rewrite Hd; apply normalized_code_spec|].
    do 2 (split; [reflexivity|]).
    split; [|split].
    + intros a Ha. rewrite Ha. reflexivity.
    + intros c Hc. rewrite Hc. reflexivity.
    + exists (sent w1), (offerRequest (process_env e) b token). subst w'.
      split; [reflexivity|].
      unfold offerRequest, param.
      destruct (truthy_field truthy_string (Req.returnDate b));
        (split; [reflexivity|]); (split; [reflexivity|]);
        (split; [reflexivity|apply clamped_adults_range]).
  - destruct (POST (Sample.search "frankfurt" "jfk airport" (Val 20) Undefined)
                (Sample.env (Val 1799)) Sample.world0) as [c w'] eqn:Hrun.
    vm_compute in Hrun. injection Hrun as <- <-.
    do 6 eexists.
    exists [oauthRequest Sample.penv],
      (offerRequest Sample.penv
         {| Req.origin := Val "frankfurt"; Req.destination := Val "jfk airport";
            Req.departDate := Val "2025-06-01"; Req.returnDate := Undefined;
            Req.adults := Val 20; Req.currency := Undefined;
            Req.maxFlightHours := Undefined |}
         (Val "tok")).
    split; [reflexivity|]. split; [reflexivity|]. split; [reflexivity|].
    split; [reflexivity|]. split; [reflexivity|].
    split; reflexivity.
Qed.

End Handler.

(** ** Concrete runs *)

Section Examples.
Local Open Scope string_scope.

Example js_primitives :
  toUpperCase "fra" = "FRA" /\ slice0 3 "FRANKFURT" = "FRA" /\ slice0 3 "ab" = "ab"
  /\ trim "  a b  " = "a b" /\ split_comma "a,,b" = ["a"; ""; "b"]
  /\ String_of_Z 9 = "9" /\ String_of_Z 12 = "12"
  /\ new_Set string_dec ["a"; "b"; "a"; "c"; "b"] = ["a"; "b"; "c"]
  /\ in_DACH "FRA" = true /\ in_DACH "JFK" = false
  /\ List.length DACH_IATA = 33%nat.
Proof. vm_compute. repeat split. Qed.

Example durations :
  (isoDurationToHours (Some "PT7H30M") == 7.5)%Q
  /\ (isoDurationToHours (Some "PT8H45M") == 8.8)%Q
  /\ (isoDurationToHours (Some "PT0H3M") == 0.1)%Q
  /\ (isoDurationToHours (Some "PT14H") == 14)%Q
  /\ (isoDurationToHours (Some "PT50M") == 0.8)%Q
  /\ (isoDurationToHours (Some "P1DT2H") == 0)%Q
  /\ (isoDurationToHours (Some "") == 0)%Q
  /\ (isoDurationToHours None == 0)%Q.
Proof. vm_compute. repeat split. Qed.

Example durations_binary64 :
  Binary64.isoDurationToHours (VString "PT7H30M") = Binary64.Returned (tenths 75)
  /\ Binary64.isoDurationToHours (VString "PT8H45M") = Binary64.Returned (tenths 88)
  /\ Binary64.isoDurationToHours (VString "PT0H3M") = Binary64.Returned (tenths 1)
  /\ Binary64.isoDurationToHours (VString "P1DT2H") = Binary64.Returned 0%float
  /\ Binary64.isoDurationToHours VUndefined = Binary64.Returned 0%float
  /\ Binary64.isoDurationToHours (VArray []) = Binary64.TypeError
  /\ Binary64.Math_round 2.5 = 3%float
  /\ Binary64.Math_round (-2.5) = (-2)%float.
Proof. vm_compute. repeat split. Qed.

(** The end-to-end run of the specification: origin "fra" for two adults. *)
Example search_from_fra :
  exists res w' q t n rs,
    POST (Sample.search "fra" "JFK" (Val 2) Undefined) (Sample.env (Val 1799))
      Sample.world0 = (Normal res, w')
    /\ statusCode res = 200
    /\ body res = SearchResult q t n rs
    /\ q_origin q = "FRA"
    /\ n = List.length rs
    /\ map Out.totalDurationHours rs = [16.6%Q; 26.1%Q; 8.8%Q]
    /\ map Out.airlines rs
       = [[Some "LH"; Some "UA"]; [Some "UA"; Some "LH"]; [Some "LH"; Some "UA"]]
    /\ map (param "adults") (sent w') = [None; Some "2"]
    /\ map (param "currencyCode") (sent w') = [None; Some "EUR"]
    /\ tokenCache w' = {| token := Val "tok"; expiresAt := 1748764801000 + 1799000 |}.
Proof.
  destruct (POST (Sample.search "fra" "JFK" (Val 2) Undefined) (Sample.env (Val 1799))
              Sample.world0) as [c w'] eqn:Hrun.
  vm_compute in Hrun. injection Hrun as <- <-.
  do 6 eexists. repeat split.
Qed.

(** A second search within the validity window reuses the token: only the
    offer search is sent. *)
Example second_search_reuses_token :
  map isTokenRequest
    (sent (snd (POST (Sample.search "MUC" "LIS" (Val 1) Undefined) (Sample.env (Val 1799))
                  (snd (POST (Sample.search "FRA" "JFK" (Val 1) Undefined)
                          (Sample.env (Val 1799)) Sample.world0)))))
  = [true; false; false].
Proof. vm_compute. reflexivity. Qed.

End Examples.

(** ** More on the duration parser *)

Section DurationParserMore.
Local Open Scope string_scope.
Local Open Scope Z_scope.



(** X2. Only the first run of digits before an "H" and the first before an
    "M" count: what follows them (seconds, say) is ignored, and so is the
    order of the two components. *)
Theorem isoDurationToHours_first_components (h m rest : string) :
  digit_sequence h -> digit_sequence m ->
  isoDurationToHours (Some ("PT" ++ h ++ "H" ++ m ++ "M" ++ rest))
  = isoDurationToHours (Some ("PT" ++ h ++ "H" ++ m ++ "M"))
  /\ isoDurationToHours (Some ("PT" ++ m ++ "M" ++ h ++ "H" ++ rest))
     = isoDurationToHours (Some ("PT" ++ h ++ "H" ++ m ++ "M")).
Proof.
  intros [Hh0 Hh] [Hm0 Hm].
  assert (HH : isDigit "H" = false) by reflexivity.
  assert (HM : isDigit "M" = false) by reflexivity.
  assert (HHM : "H"%char <> "M"%char) by discriminate.
  assert (HMH : "M"%char <> "H"%char) by discriminate.
  assert (forall r, match_digits_then "H" (h ++ String "H" r) = Some h) as Hhit
    by (intros r; apply match_hit; [split|]; assumption).
  assert (forall r, match_digits_then "M" (m ++ String "M" r) = Some m) as Mhit
    by (intros r; apply match_hit; [split|]; assumption).
  assert (forall r, isoDurationToHours (Some ("PT" ++ h ++ String "H" (m ++ String "M" r)))
                    = isoDurationToHours (Some ("PT" ++ h ++ String "H" (m ++ String "M" "")))) as E1.
  { intros r. rewrite !(iso_prefixed (Some h) (Some m)); try reflexivity; try apply Hhit.
    - rewrite (match_skip_run "M" "H" h _ Hh HH HHM), (match_skip_nondigit _ _ _ HH).
      apply Mhit.
    - rewrite (match_skip_run "M" "H" h _ Hh HH HHM), (match_skip_nondigit _ _ _ HH).
      apply Mhit. }
  split.
  - exact (E1 rest).
  - change ("PT" ++ m ++ "M" ++ h ++ "H" ++ rest)
      with ("PT" ++ m ++ String "M" (h ++ String "H" rest)).
    change ("PT" ++ h ++ "H" ++ m ++ "M")
      with ("PT" ++ h ++ String "H" (m ++ String "M" "")).
    rewrite !(iso_prefixed (Some h) (Some m)); try reflexivity; try apply Hhit;
      try apply Mhit.
    + rewrite (match_skip_run "M" "H" h _ Hh HH HHM), (match_skip_nondigit _ _ _ HH).
      apply Mhit.
    + rewrite (match_skip_run "H" "M" m _ Hm HM HMH), (match_skip_nondigit _ _ _ HM).
      apply Hhit.
Qed.

Lemma isoDurationToHours_first_components_witness :
  isoDurationToHours (Some "PT7H30M15S") = isoDurationToHours (Some "PT7H30M")
  /\ isoDurationToHours (Some "PT30M7H15S") = isoDurationToHours (Some "PT7H30M").
Proof.
  assert (H7 : digit_sequence "7") by (split; [discriminate|reflexivity]).
  assert (H30 : digit_sequence "30") by (split; [discriminate|reflexivity]).
  exact (isoDurationToHours_first_components "7" "30" "15S" H7 H30).
Defined.

(** X3. A string in which no run of digits is followed by "H" and none by
    "M" is zero hours, "PT" prefix or not: days and seconds never count. *)
Theorem isoDurationToHours_no_marker (s : string) :
  (forall i g, ~ matches_at "H" s i g) ->
  (forall i g, ~ matches_at "M" s i g) ->
  (isoDurationToHours (Some s) == 0)%Q.
Proof.
  intros NoH NoM.
  pose proof (match_digits_then_leftmost "H" s eq_refl) as LH.
  pose proof (match_digits_then_leftmost "M" s eq_refl) as LM.
  unfold isoDurationToHours.
  destruct (negb (truthy_string s) || negb (startsWith "PT" s)); [reflexivity|].
  destruct (match_digits_then "H" s) as [g|].
  { destruct LH as (i & Hm & _). destruct (NoH i g Hm). }
  destruct (match_digits_then "M" s) as [g|].
  { destruct LM as (i & Hm & _). destruct (NoM i g Hm). }
  reflexivity.
Qed.

Lemma string_app_assoc (a b c : string) : (a ++ b) ++ c = a ++ (b ++ c).
Proof.
  induction a as [|x a IH]; [reflexivity|]. cbn. rewrite IH. reflexivity.
Qed.

Lemma no_match_without_marker (X : ascii) (s : string) :
  (forall pre post, s <> pre ++ String X post) ->
  forall i g, ~ matches_at X s i g.
Proof.
  intros Hno i g (pre & post & E & _). apply (Hno (pre ++ g) post).
  rewrite E, string_app_assoc. reflexivity.
Qed.

Lemma isoDurationToHours_no_marker_witness :
  (isoDurationToHours (Some "PT45S") == 0)%Q.
Proof.
  assert (forall X, X = "H"%char \/ X = "M"%char ->
                    forall pre post, "PT45S" <> pre ++ String X post) as Hno.
  { intros X HX pre post E.
    destruct pre as [|a [|b [|c [|d [|f [|k pre]]]]]]; cbn in E;
      destruct HX as [-> | ->]; try discriminate E.
    all: injection E as _ _ _ _ _ E; destruct pre; discriminate E. }
  apply isoDurationToHours_no_marker; apply no_match_without_marker; apply Hno; auto.
Defined.

End DurationParserMore.

(** ** More on the token cache *)

Section TokenCacheMore.
Local Open Scope string_scope.
Local Open Scope Z_scope.

Lemma hit_or_miss (c : TokenCache) (now : Z) :
  valid_at c now \/ (holds_token c = false \/ expiresAt c - now <= 60000).
Proof.
  unfold valid_at. destruct (holds_token c); [|right; left; reflexivity].
  destruct (Z_le_gt_dec (expiresAt c - now) 60000); [right; right; assumption|].
  left. split; [reflexivity|assumption].
Qed.

(** X4. However an access ends: a token it returns is the one the slot now
    holds; when it throws (a refused exchange, a network failure, an answer
    that is not JSON) the slot is as it was; and it sends nothing or just
    the one credential exchange. *)
Theorem getAmadeusToken_outcomes (e : Env) (w : World) :
  (forall t w', getAmadeusToken e w = (Normal t, w') -> token (tokenCache w') = t)
  /\ (forall msg w', getAmadeusToken e w = (Throw msg, w') -> tokenCache w' = tokenCache w)
  /\ (sent (snd (getAmadeusToken e w)) = sent w
      \/ sent (snd (getAmadeusToken e w))
         = (sent w ++ [oauthRequest (process_env e)])%list).
Proof.
  destruct (hit_or_miss (tokenCache w) (clock e (clockReads w))) as [Hv|Hm].
  - rewrite (getAmadeusToken_hit e w Hv). split; [|split].
    + intros t w' E. injection E as <- <-. reflexivity.
    + intros msg w' E. discriminate E.
    + left. reflexivity.
  - split; [|split]; [| |right; apply miss_sends_once, Hm];
      rewrite (getAmadeusToken_miss e w Hm); cbv zeta;
      destruct (tokenService e (sent w) (oauthRequest (process_env e))) as [reason|resp];
      try destruct (ok resp); try destruct (json resp) as [m|data];
      intros x w' E; try discriminate E; injection E as <- <-; reflexivity.
Qed.

(** X5. Refresh, then access: after a successful exchange that granted a
    non-empty token, every access that finds the slot untouched and reads
    the clock more than 60 seconds before the refresh instant plus the
    declared lifetime returns that token and sends nothing. *)
Theorem getAmadeusToken_reuse (e : Env) (w : World)
    (resp : FetchResponse TokenData) (data : TokenData) (t : string) (w2 : World) :
  holds_token (tokenCache w) = false
  \/ expiresAt (tokenCache w) - clock e (clockReads w) <= 60000 ->
  tokenService e (sent w) (oauthRequest (process_env e)) = Resolved resp ->
  ok resp = true ->
  json resp = inr data ->
  access_token data = Val t -> t <> "" ->
  tokenCache w2 = tokenCache (snd (getAmadeusToken e w)) ->
  clock e (clockReads w2)
  < clock e (S (clockReads w)) + or_Z (expires_in data) 0 * 1000 - 60000 ->
  exists w3,
    getAmadeusToken e w2 = (Normal (Val t), w3)
    /\ sent w3 = sent w2
    /\ tokenCache w3 = tokenCache w2.
Proof.
  intros Hm Hs Hok Hj Ht Hne Hc Hnow.
  rewrite (getAmadeusToken_miss e w Hm) in Hc. cbv zeta in Hc.
  rewrite Hs, Hok, Hj, Ht in Hc. cbn [snd caching tokenCache] in Hc.
  exists (tick w2). rewrite getAmadeusToken_hit.
  - split; [rewrite Hc; reflexivity|split; reflexivity].
  - rewrite Hc. split; [|cbn [expiresAt]; lia].
    destruct t; [congruence|reflexivity].
Qed.

Lemma getAmadeusToken_reuse_witness :
  exists w3,
    getAmadeusToken (Sample.env (Val 1799))
      (snd (getAmadeusToken (Sample.env (Val 1799)) Sample.world0))
    = (Normal (Val "tok"), w3)
    /\ sent w3 = sent (snd (getAmadeusToken (Sample.env (Val 1799)) Sample.world0))
    /\ tokenCache w3
       = tokenCache (snd (getAmadeusToken (Sample.env (Val 1799)) Sample.world0)).
Proof.
  apply (getAmadeusToken_reuse (Sample.env (Val 1799)) Sample.world0
           {| status := 200; text := "";
              json := inr {| access_token := Val "tok"; expires_in := Val 1799 |} |}
           {| access_token := Val "tok"; expires_in := Val 1799 |} "tok").
  - left. reflexivity.
  - reflexivity.
  - reflexivity.
  - reflexivity.
  - reflexivity.
  - discriminate.
  - reflexivity.
  - vm_compute. reflexivity.
Defined.

(** X6. A successful exchange whose answer has no usable token (missing,
    [null] or empty), or a lifetime of 60 seconds or less, is never
    reused: from the refresh instant on, every access that finds the slot
    untouched sends the credential exchange again. *)
Theorem getAmadeusToken_never_reused (e : Env) (w : World)
    (resp : FetchResponse TokenData) (data : TokenData) (w2 : World) :
  holds_token (tokenCache w) = false
  \/ expiresAt (tokenCache w) - clock e (clockReads w) <= 60000 ->
  tokenService e (sent w) (oauthRequest (process_env e)) = Resolved resp ->
  ok resp = true ->
  json resp = inr data ->
  truthy_field truthy_string (access_token data) = false
  \/ or_Z (expires_in data) 0 <= 60 ->
  tokenCache w2 = tokenCache (snd (getAmadeusToken e w)) ->
  clock e (S (clockReads w)) <= clock e (clockReads w2) ->
  sent (snd (getAmadeusToken e w2))
  = (sent w2 ++ [oauthRequest (process_env e)])%list.
Proof.
  intros Hm Hs Hok Hj Hbad Hc Hnow.
  rewrite (getAmadeusToken_miss e w Hm) in Hc. cbv zeta in Hc.
  rewrite Hs, Hok, Hj in Hc. cbn [snd caching tokenCache] in Hc.
  apply miss_sends_once. rewrite Hc. unfold holds_token. cbn [token expiresAt].
  destruct Hbad as [Hb|Hb]; [left; exact Hb|right; lia].
Qed.

Lemma getAmadeusToken_never_reused_witness :
  sent (snd (getAmadeusToken (Sample.env (Val 60))
               (snd (getAmadeusToken (Sample.env (Val 60)) Sample.world0))))
  = [oauthRequest Sample.penv; oauthRequest Sample.penv].
Proof.
  apply (getAmadeusToken_never_reused (Sample.env (Val 60)) Sample.world0
           {| status := 200; text := "";
              json := inr {| access_token := Val "tok"; expires_in := Val 60 |} |}
           {| access_token := Val "tok"; expires_in := Val 60 |}).
  - left. reflexivity.
  - reflexivity.
  - reflexivity.
  - reflexivity.
  - right. vm_compute. discriminate.
  - reflexivity.
  - vm_compute. discriminate.
Defined.

End TokenCacheMore.

(** ** More on the offer normalizer *)

Section SetMore.
Context {A : Type} (eq_dec : forall x y : A, {x = y} + {x <> y}).

Lemma first_occurrences_In (l : list A) (x : A) :
  In x (first_occurrences eq_dec l) <-> In x l.
Proof.
  induction l as [|y l IH]; [reflexivity|].
  cbn [first_occurrences In]. split.
  - intros [E|H]; [left; exact E|].
    right. apply IH. apply in_remove in H. apply H.
  - intros [E|H]; [left; exact E|].
    destruct (eq_dec y x) as [E|N]; [left; exact E|].
    right. apply in_in_remove; [congruence|]. apply IH, H.
Qed.

Lemma NoDup_remove_all (l : list A) (x : A) :
  NoDup l -> NoDup (remove eq_dec x l).
Proof.
  induction 1 as [|y l Hy Hl IH]; [constructor|].
  cbn [remove]. destruct (eq_dec x y); [exact IH|].
  constructor; [|exact IH].
  intros H. apply in_remove in H. apply Hy, H.
Qed.

Lemma first_occurrences_NoDup (l : list A) : NoDup (first_occurrences eq_dec l).
Proof.
  induction l as [|y l IH]; [constructor|].
  cbn [first_occurrences]. constructor.
  - apply remove_In.
  - apply NoDup_remove_all, IH.
Qed.

Lemma new_Set_In (l : list A) (x : A) : In x (new_Set eq_dec l) <-> In x l.
Proof. rewrite new_Set_first_occurrences. apply first_occurrences_In. Qed.

Lemma new_Set_NoDup (l : list A) : NoDup (new_Set eq_dec l).
Proof. rewrite new_Set_first_occurrences. apply first_occurrences_NoDup. Qed.

End SetMore.

Section NormalizerMore.
Local Open Scope string_scope.
Local Open Scope Z_scope.

Lemma present_iff (a : option string) :
  present a = true <-> exists c, a = Some c /\ c <> "".
Proof.
  split.
  - destruct a as [[|x c]|]; try discriminate. intros _. eexists. split; [reflexivity|discriminate].
  - intros (c & -> & Hc). destruct c; [congruence|reflexivity].
Qed.

(** The carrier codes on the segments of the normalized offer are the raw
    segments' codes. *)
Lemma output_carriers (currency : field string) (offer : option Raw.Offer) (a : option string) :
  In a (segment_carriers offer) <->
  exists it seg,
    In it (Out.itineraries (normalizeOffer currency offer))
    /\ In seg (Out.segments it)
    /\ Out.carrier seg = a.
Proof.
  unfold segment_carriers, normalizeOffer. cbn [Out.itineraries].
  replace (or_nil (chain offer Raw.itineraries)) with (itineraries_of offer)
    by (destruct offer; reflexivity).
  rewrite in_concat. split.
  - intros (l & Hl & Ha). apply in_map_iff in Hl as (rit & <- & Hrit).
    apply in_map_iff in Ha as (rseg & <- & Hrseg).
    exists (normalizeItinerary rit), (normalizeSegment rseg).
    split; [apply in_map, Hrit|]. split.
    + unfold normalizeItinerary. cbn [Out.segments].
      replace (or_nil (chain rit Raw.segments)) with (segments_of rit)
        by (destruct rit; reflexivity).
      apply in_map, Hrseg.
    + destruct rseg; reflexivity.
  - intros (it & seg & Hit & Hseg & <-).
    apply in_map_iff in Hit as (rit & <- & Hrit).
    unfold normalizeItinerary in Hseg. cbn [Out.segments] in Hseg.
    replace (or_nil (chain rit Raw.segments)) with (segments_of rit) in Hseg
      by (destruct rit; reflexivity).
    apply in_map_iff in Hseg as (rseg & <- & Hrseg).
    exists (map carrier_of (segments_of rit)). split.
    + apply in_map_iff. exists rit. split; [reflexivity|exact Hrit].
    + apply in_map_iff. exists rseg. split; [destruct rseg; reflexivity|exact Hrseg].
Qed.

Lemma airlines_members (currency : field string) (offer : option Raw.Offer)
    (a : option string) :
  In a (Out.airlines (normalizeOffer currency offer)) <->
  In a (validating_codes offer)
  \/ (present a = true /\ In a (segment_carriers offer)).
Proof.
  unfold normalizeOffer. cbn [Out.airlines].
  rewrite new_Set_In, in_app_iff, carrierCodes_spec, filter_In.
  replace (or_nil (chain offer Raw.validatingAirlineCodes)) with (validating_codes offer)
    by (destruct offer; reflexivity).
  tauto.
Qed.

(** X7. The airlines of a normalized offer hold no code twice; every
    non-empty carrier code shown on one of its segments is among them; and
    each of them is one of the offer's validating codes or such a
    carrier code. *)
Theorem normalizeOffer_airlines_consistent (currency : field string)
    (offer : option Raw.Offer) :
  let o := normalizeOffer currency offer in
  NoDup (Out.airlines o)
  /\ (forall it seg c,
        In it (Out.itineraries o) -> In seg (Out.segments it) ->
        Out.carrier seg = Some c -> c <> "" ->
        In (Some c) (Out.airlines o))
  /\ (forall a,
        In a (Out.airlines o) ->
        In a (validating_codes offer)
        \/ exists c it seg,
             a = Some c /\ c <> ""
             /\ In it (Out.itineraries o) /\ In seg (Out.segments it)
             /\ Out.carrier seg = Some c).
Proof.
  intros o. subst o. split; [|split].
  - unfold normalizeOffer. cbn [Out.airlines]. apply new_Set_NoDup.
  - intros it seg c Hit Hseg Hc Hne.
    apply airlines_members. right. split.
    + apply present_iff. exists c. split; [reflexivity|exact Hne].
    + apply (output_carriers currency). exists it, seg. auto.
  - intros a Ha. apply airlines_members in Ha as [Hv|[Hp Hs]]; [left; exact Hv|].
    right. apply present_iff in Hp as (c & -> & Hne).
    apply (output_carriers currency) in Hs as (it & seg & Hit & Hseg & Hc).
    exists c, it, seg. auto.
Qed.

End NormalizerMore.

(** ** More on the request handler *)

Section HandlerMore.
Local Open Scope string_scope.
Local Open Scope Z_scope.

(** Every path through the handler, one goal each. *)
Ltac post_paths request e w :=
  destruct (json_body request) as [umsg|b] eqn:Hb;
  [ rewrite (POST_unparsed request umsg e w Hb)
  | rewrite (POST_run request b e w Hb); cbv zeta;
    destruct (validated b) eqn:Hv; cbn [negb];
    [ destruct (in_DACH (normalized_code (Req.origin b))) eqn:Hd; cbn [negb];
      [ destruct (getAmadeusToken e w) as [[tok|tmsg] w1] eqn:Hg;
        [ destruct (offerService e (sent w1) (offerRequest (process_env e) b tok))
            as [reason|resp] eqn:Hs;
          [ | destruct (ok resp) eqn:Hok;
              [ destruct (json resp) as [jmsg|data] eqn:Hj
              | destruct (status_accepted (status resp)) eqn:Hst ] ]
        | ]
      | ]
    | ] ].

Lemma token_access_sends (e : Env) (w : World) :
  sent (snd (getAmadeusToken e w)) = sent w
  \/ sent (snd (getAmadeusToken e w)) = (sent w ++ [oauthRequest (process_env e)])%list.
Proof.
  destruct (hit_or_miss (tokenCache w) (clock e (clockReads w))) as [Hv|Hm].
  - left. rewrite (getAmadeusToken_hit e w Hv). reflexivity.
  - right. apply miss_sends_once, Hm.
Qed.

Lemma not_ok_not_200 {A} (resp : FetchResponse A) : ok resp = false -> status resp <> 200.
Proof.
  unfold ok. intros H E. rewrite E in H. discriminate H.
Qed.

(** X9. The handler never throws: every request gets an answer, which is
    either the result envelope with status 200 or an error envelope with
    another status; results never come with an error. *)
Theorem POST_always_answers (request : HttpRequest) (e : Env) (w : World) :
  exists res w',
    POST request e w = (Normal res, w')
    /\ ((statusCode res = 200 /\ exists q t n rs, body res = SearchResult q t n rs)
        \/ (statusCode res <> 200 /\ exists err details, body res = ErrorBody err details)).
Proof.
  post_paths request e w; eexists; eexists; (split; [reflexivity|]);
    rewrite (proj1 (cors_keeps _ _ _)), (proj2 (cors_keeps _ _ _));
    unfold server_error, missing_fields, origin_not_allowed, search_result,
      upstream_error, json_response;
    cbn [statusCode body].
  all: first
    [ left; split; [reflexivity|do 4 eexists; reflexivity]
    | right; split;
      [ first [apply not_ok_not_200; assumption | intros E; discriminate E]
      | eexists; eexists; reflexivity ] ].
Qed.

(** X10. What one request makes the handler send: nothing; or the
    credential exchange alone; or the offer search, alone or right after
    the credential exchange.  The offer search is only ever sent for a
    body that passed validation and whose origin is in the DACH list. *)
Theorem POST_calls (request : HttpRequest) (e : Env) (w : World) :
  exists new,
    sent (snd (POST request e w)) = (sent w ++ new)%list
    /\ (new = []
        \/ new = [oauthRequest (process_env e)]
        \/ exists b token,
             json_body request = inr b
             /\ validated b = true
             /\ in_DACH (normalized_code (Req.origin b)) = true
             /\ (new = [offerRequest (process_env e) b token]
                 \/ new = [oauthRequest (process_env e);
                           offerRequest (process_env e) b token])).
Proof.
  assert (forall l : list Request, l = (l ++ [])%list) as Hnil
    by (intros l; rewrite app_nil_r; reflexivity).
  pose proof (token_access_sends e w) as Ht.
  post_paths request e w; cbn [snd sent sending tick];
    try (exists []; split; [apply Hnil|left; reflexivity]);
    try rewrite Hg in Ht; cbn [snd] in Ht;
    try (destruct Ht as [-> | ->];
         [ exists []; split; [apply Hnil|left; reflexivity]
         | exists [oauthRequest (process_env e)]; split;
           [reflexivity|right; left; reflexivity] ]);
    (destruct Ht as [-> | ->];
     [ exists [offerRequest (process_env e) b tok]; split; [reflexivity|];
       right; right; exists b, tok; auto
     | exists [oauthRequest (process_env e); offerRequest (process_env e) b tok];
       split; [rewrite <- app_assoc; reflexivity|];
       right; right; exists b, tok; auto ]).
Qed.

(** X11. Whatever throws inside the handler (reading the body, the token
    access, the offer search's [fetch], its JSON, or [NextResponse.json]
    given a provider status it refuses) ends in the answer 500
    "Server error" whose details are the thrown value as
    [String(e?.message || e)] prints it. *)
Theorem POST_faults_become_500 (request : HttpRequest) (e : Env) (w : World) :
  let answer printed w' :=
    POST request e w
    = (Normal (cors (process_env e) (server_error printed) (header_origin request)), w') in
  (forall printed,
      statusCode (server_error printed) = 500
      /\ body (server_error printed) = ErrorBody "Server error" (Some printed))
  /\ (forall msg, json_body request = inl msg -> answer msg w)
  /\ (forall b, json_body request = inr b -> validated b = true ->
      in_DACH (normalized_code (Req.origin b)) = true ->
      (forall msg w1, getAmadeusToken e w = (Throw msg, w1) -> answer msg w1)
      /\ (forall token w1 resp,
            getAmadeusToken e w = (Normal token, w1) ->
            let req := offerRequest (process_env e) b token in
            (forall msg, offerService e (sent w1) req = Rejected msg ->
                         answer msg (sending req w1))
            /\ (forall msg, offerService e (sent w1) req = Resolved resp ->
                            ok resp = true -> json resp = inl msg ->
                            answer msg (sending req w1))
            /\ (offerService e (sent w1) req = Resolved resp ->
                ok resp = false -> status_accepted (status resp) = false ->
                answer (responseError e (status resp)) (sending req w1)))).
Proof.
  intros answer. subst answer. cbv beta. split; [|split].
  - intros printed. split; reflexivity.
  - intros msg Hb. apply POST_unparsed, Hb.
  - intros b Hb Hv Hd. split.
    + intros msg w1 Hg. rewrite (POST_run request b e w Hb). cbv zeta.
      rewrite Hv, Hd, Hg. reflexivity.
    + intros token w1 resp Hg req. split; [|split].
      * intros msg Hs. rewrite (POST_run request b e w Hb). cbv zeta.
        rewrite Hv, Hd, Hg. cbn [negb]. fold req. rewrite Hs. reflexivity.
      * intros msg Hs Hok Hj. rewrite (POST_run request b e w Hb). cbv zeta.
        rewrite Hv, Hd, Hg. cbn [negb]. fold req. rewrite Hs, Hok, Hj. reflexivity.
      * intros Hs Hok Hst. rewrite (POST_run request b e w Hb). cbv zeta.
        rewrite Hv, Hd, Hg. cbn [negb]. fold req. rewrite Hs, Hok, Hst. reflexivity.
Qed.

(** X12. A refused credential exchange seen from the caller: for a valid
    request from a DACH origin that finds no usable token, a non-success
    answer of the credential service gives 500 "Server error" with the
    details "Amadeus OAuth failed: " and the service's raw body; the offer
    search is not sent and the token cache is as before. *)
Theorem POST_oauth_refused (request : HttpRequest) (b : Req.Body) (e : Env) (w : World)
    (resp : FetchResponse TokenData) :
  json_body request = inr b ->
  validated b = true ->
  in_DACH (normalized_code (Req.origin b)) = true ->
  holds_token (tokenCache w) = false
  \/ expiresAt (tokenCache w) - clock e (clockReads w) <= 60000 ->
  tokenService e (sent w) (oauthRequest (process_env e)) = Resolved resp ->
  ok resp = false ->
  exists res w',
    POST request e w = (Normal res, w')
    /\ statusCode res = 500
    /\ body res = ErrorBody "Server error" (Some ("Amadeus OAuth failed: " ++ text resp))
    /\ sent w' = (sent w ++ [oauthRequest (process_env e)])%list
    /\ tokenCache w' = tokenCache w.
Proof.
  intros Hb Hv Hd Hm Hs Hok.
  rewrite (POST_run request b e w Hb). cbv zeta. rewrite Hv, Hd. cbn [negb].
  rewrite (getAmadeusToken_miss e w Hm). cbv zeta. rewrite Hs, Hok.
  eexists. eexists. split; [reflexivity|].
  rewrite (proj1 (cors_keeps _ _ _)), (proj2 (cors_keeps _ _ _)).
  repeat split.
Qed.

Lemma POST_oauth_refused_witness :
  exists res w',
    POST (Sample.search "FRA" "JFK" (Val 2) Undefined) Sample.env_refusing Sample.world0
    = (Normal res, w')
    /\ statusCode res = 500
    /\ body res = ErrorBody "Server error" (Some "Amadeus OAuth failed: invalid_client")
    /\ sent w' = [oauthRequest Sample.penv]
    /\ tokenCache w' = tokenCache0.
Proof.
  exact (POST_oauth_refused
           (Sample.search "FRA" "JFK" (Val 2) Undefined)
           {| Req.origin := Val "FRA"; Req.destination := Val "JFK";
              Req.departDate := Val "2025-06-01"; Req.returnDate := Undefined;
              Req.adults := Val 2; Req.currency := Undefined;
              Req.maxFlightHours := Undefined |}
           Sample.env_refusing Sample.world0
           {| status := 401; text := "invalid_client"; json := inl "unused" |}
           eq_refl eq_refl eq_refl (or_introl eq_refl) eq_refl eq_refl).
Defined.

Lemma token_access_caches (e : Env) (w : World) (tok : field string) (w1 : World) :
  getAmadeusToken e w = (Normal tok, w1) -> token (tokenCache w1) = tok.
Proof.
  intros Hg.
  destruct (hit_or_miss (tokenCache w) (clock e (clockReads w))) as [Hh|Hm].
  - rewrite (getAmadeusToken_hit e w Hh) in Hg. injection Hg as <- <-. reflexivity.
  - rewrite (getAmadeusToken_miss e w Hm) in Hg. cbv zeta in Hg.
    destruct (tokenService e (sent w) (oauthRequest (process_env e))) as [reason|r];
      [discriminate Hg|].
    destruct (ok r); [|discriminate Hg].
    destruct (json r) as [m|data]; [discriminate Hg|].
    injection Hg as <- <-. reflexivity.
Qed.

(** X13. A provider error is passed on: when the offer search answers with
    a status from 300 to 599 other than 304, the handler answers with that
    same status and the body [{error: "Amadeus API error", details: <the
    provider's raw body>}].  A status that [NextResponse.json] refuses
    (below 200, above 599, or 304) turns into 500 "Server error".  Either
    way no result is produced and the token just obtained stays in the
    cache. *)
Theorem POST_upstream_error (request : HttpRequest) (b : Req.Body) (e : Env) (w : World)
    (tok : field string) (w1 : World) (resp : FetchResponse (option Raw.SearchData)) :
  json_body request = inr b ->
  validated b = true ->
  in_DACH (normalized_code (Req.origin b)) = true ->
  getAmadeusToken e w = (Normal tok, w1) ->
  offerService e (sent w1) (offerRequest (process_env e) b tok) = Resolved resp ->
  ok resp = false ->
  exists res w',
    POST request e w = (Normal res, w')
    /\ tokenCache w' = tokenCache w1
    /\ token (tokenCache w') = tok
    /\ (300 <= status resp <= 599 -> status resp <> 304 ->
        statusCode res = status resp
        /\ body res = ErrorBody "Amadeus API error" (Some (text resp)))
    /\ (status resp < 200 \/ 599 < status resp \/ status resp = 304 ->
        statusCode res = 500
        /\ body res = ErrorBody "Server error" (Some (responseError e (status resp)))).
Proof.
  intros Hb Hv Hd Hg Hs Hok.
  pose proof (token_access_caches e w tok w1 Hg) as Htok.
  rewrite (POST_run request b e w Hb). cbv zeta. rewrite Hv, Hd, Hg. cbn [negb].
  rewrite Hs, Hok.
  assert (status_accepted (status resp) = true
          <-> 300 <= status resp <= 599 /\ status resp <> 304) as Hacc.
  { unfold ok in Hok. apply andb_false_iff in Hok.
    unfold status_accepted, null_body_status.
    rewrite !andb_true_iff, negb_true_iff, !orb_false_iff, !Z.leb_le, !Z.eqb_neq.
    rewrite Z.leb_gt, Z.leb_gt in Hok. lia. }
  destruct (status_accepted (status resp)) eqn:Hst;
    eexists; eexists; (split; [reflexivity|]);
    rewrite (proj1 (cors_keeps _ _ _)), (proj2 (cors_keeps _ _ _));
    (split; [reflexivity|]); (split; [exact Htok|]).
  - split; [intros _ _; split; reflexivity|].
    destruct (proj1 Hacc eq_refl) as [Hrange Hne]. intros Hout. lia.
  - split; [|intros _; split; reflexivity].
    intros H1 H2. discriminate (proj2 Hacc (conj H1 H2)).
Qed.

Lemma POST_upstream_error_witness :
  exists res w',
    POST (Sample.search "FRA" "JFK" (Val 2) Undefined) Sample.env_offers_refusing
      Sample.world0 = (Normal res, w')
    /\ statusCode res = 429
    /\ body res = ErrorBody "Amadeus API error" (Some "rate limit")
    /\ token (tokenCache w') = Val "tok".
Proof.
  destruct (getAmadeusToken Sample.env_offers_refusing Sample.world0) as [out w1] eqn:Hg.
  assert (Hg' := Hg). vm_compute in Hg'. injection Hg' as Hout Hw1.
  destruct (POST_upstream_error
              (Sample.search "FRA" "JFK" (Val 2) Undefined)
              {| Req.origin := Val "FRA"; Req.destination := Val "JFK";
                 Req.departDate := Val "2025-06-01"; Req.returnDate := Undefined;
                 Req.adults := Val 2; Req.currency := Undefined;
                 Req.maxFlightHours := Undefined |}
              Sample.env_offers_refusing Sample.world0 (Val "tok") w1
              {| status := 429; text := "rate limit"; json := inl "unused" |})
    as (res & w' & Hrun & _ & Htok & Hpass & _).
  - reflexivity.
  - reflexivity.
  - reflexivity.
  - rewrite Hg, <- Hout. reflexivity.
  - reflexivity.
  - reflexivity.
  - destruct Hpass as [Hst Hbody]; [cbn; lia|cbn; lia|].
    exists res, w'. auto.
Defined.

(** X14. In every result envelope [count] is the number of results, the
    results are normalized offers of the provider's answer in the
    provider's order (some left out by the filter, none added, none
    repeated more often), and [fetchedAt] is the clock reading taken after
    the search. *)
Theorem POST_result_envelope (request : HttpRequest) (e : Env) (w : World)
    (res : Response) (w' : World)
    (q : QueryEcho) (t : Z) (n : nat) (rs : list Out.Offer) :
  POST request e w = (Normal res, w') ->
  body res = SearchResult q t n rs ->
  exists b token w1 resp data,
    json_body request = inr b
    /\ getAmadeusToken e w = (Normal token, w1)
    /\ offerService e (sent w1) (offerRequest (process_env e) b token) = Resolved resp
    /\ json resp = inr data
    /\ statusCode res = 200
    /\ n = List.length rs
    /\ (exists keep, rs = filter keep (items_of b data))
    /\ (List.length rs <= List.length (offers_of data))%nat
    /\ t = clock e (clockReads w1).
Proof.
  intros Hrun Hbody.
  destruct (POST_success _ _ _ _ _ _ _ _ _ Hrun Hbody)
    as (b & token & w1 & resp & data & Hb & _ & _ & Hg & Hs & _ & Hj & Hres & _).
  exists b, token, w1, resp, data.
  rewrite Hres, (proj2 (cors_keeps _ _ _)) in Hbody.
  unfold search_result in Hbody. cbn [body json_response] in Hbody.
  injection Hbody as _ Ht Hn Hrs.
  assert (exists keep, rs = filter keep (items_of b data)) as [keep Hk].
  { rewrite <- Hrs. unfold filterByMaxFlightHours.
    destruct (Req.maxFlightHours b) as [| |h];
      try (exists (fun _ => true); symmetry; apply forallb_filter_id, forallb_forall;
           reflexivity).
    destruct (truthy_Q h && negb (Qle_bool h 0)).
    - eexists. reflexivity.
    - exists (fun _ => true). symmetry. apply forallb_filter_id, forallb_forall.
      reflexivity. }
  split; [exact Hb|]. split; [exact Hg|]. split; [exact Hs|]. split; [exact Hj|].
  split; [rewrite Hres; apply cors_keeps|].
  split; [rewrite <- Hn, Hrs; reflexivity|].
  split; [exists keep; exact Hk|].
  split; [|symmetry; exact Ht].
  rewrite Hk. etransitivity; [apply filter_length_le|].
  unfold items_of. rewrite length_map. apply le_n.
Qed.

Lemma POST_result_envelope_witness :
  exists res w' q t n rs,
    POST (Sample.search "FRA" "JFK" (Val 2) (Val 17%Q)) (Sample.env (Val 1799))
      Sample.world0 = (Normal res, w')
    /\ body res = SearchResult q t n rs
    /\ statusCode res = 200
    /\ n = List.length rs
    /\ (List.length rs <= 3)%nat.
Proof.
  destruct (POST (Sample.search "FRA" "JFK" (Val 2) (Val 17%Q)) (Sample.env (Val 1799))
              Sample.world0) as [[res|msg] w'] eqn:Hrun;
    [|vm_compute in Hrun; discriminate Hrun].
  destruct (body res) as [| |q t n rs] eqn:Hbody;
    [vm_compute in Hrun; injection Hrun as <- <-; discriminate Hbody
    |vm_compute in Hrun; injection Hrun as <- <-; discriminate Hbody|].
  exists res, w', q, t, n, rs.
  split; [reflexivity|]. split; [exact Hbody|].
  destruct (POST_result_envelope _ _ _ _ _ _ _ _ _ Hrun Hbody)
    as (b & token & w1 & resp & data & _ & Hg & Hs & Hj & Hst & Hn & _ & Hlen & _).
  split; [exact Hst|]. split; [exact Hn|].
  vm_compute in Hg. injection Hg as <- <-.
  vm_compute in Hs. injection Hs as <-.
  vm_compute in Hj. injection Hj as <-. exact Hlen.
Defined.

Lemma trimStart_empty (s : string) : trimStart s = "" <-> all_space s = true.
Proof.
  induction s as [|c s IH]; [split; reflexivity|].
  cbn [trimStart all_space]. destruct (isSpace c); cbn [andb]; [exact IH|].
  split; discriminate.
Qed.

Lemma trimStart_head (s : string) (c : ascii) (r : string) :
  trimStart s = String c r -> isSpace c = false.
Proof.
  induction s as [|a s IH]; [discriminate|].
  cbn [trimStart]. destruct (isSpace a) eqn:E; [exact IH|].
  intros [= <- _]. exact E.
Qed.

Lemma trim_empty (s : string) : trim s = "" <-> all_space s = true.
Proof.
  rewrite <- trimStart_empty. unfold trim. split.
  - destruct (trimStart s) as [|c r] eqn:E; [reflexivity|].
    pose proof (trimStart_head s c r E) as Hc.
    cbn [trimEnd]. destruct (trimEnd r); [rewrite Hc|]; discriminate.
  - intros ->. reflexivity.
Qed.

Lemma bad_filled (v : field string) : bad v = false <-> filled v.
Proof.
  unfold filled. destruct v as [| |s]; cbn [bad].
  - split; [discriminate|]. intros (s & E & _). discriminate E.
  - split; [discriminate|]. intros (s & E & _). discriminate E.
  - rewrite String.eqb_neq, trim_empty. split.
    + intros H. exists s. split; [reflexivity|]. destruct (all_space s); congruence.
    + intros (s' & [= <-] & H). congruence.
Qed.

Lemma bad_lacking (v : field string) : bad v = true <-> lacking v.
Proof.
  unfold lacking. destruct v as [| |s]; cbn [bad].
  - split; auto.
  - split; auto.
  - rewrite String.eqb_eq, trim_empty. split.
    + intros H. right. right. exists s. auto.
    + intros [E|[E|(s' & [= <-] & H)]]; [discriminate E|discriminate E|exact H].
Qed.

(** X15. Required fields.  A body in which origin, destination or
    departDate is missing, [null] or a blank string, or in which adults is
    [null] or 0, is answered 400 "Missing required fields" before anything
    else happens: nothing is sent, the clock is not read, the cache is
    untouched.  A body in which the three are ASCII strings with a
    character that is not white space, and adults is missing or a number
    other than 0, passes: whatever the answer, it is not that error. *)
Theorem POST_required_fields (request : HttpRequest) (b : Req.Body) (e : Env) (w : World) :
  json_body request = inr b ->
  (lacking (Req.origin b) \/ lacking (Req.destination b) \/ lacking (Req.departDate b)
   \/ Req.adults b = Null \/ Req.adults b = Val 0 ->
   exists res,
     POST request e w = (Normal res, w)
     /\ statusCode res = 400
     /\ body res = ErrorBody "Missing required fields" None)
  /\ ((exists o d t,
         Req.origin b = Val o /\ Req.destination b = Val d /\ Req.departDate b = Val t
         /\ all_ascii o = true /\ all_ascii d = true /\ all_ascii t = true
         /\ all_space o = false /\ all_space d = false /\ all_space t = false) ->
      Req.adults b = Undefined \/ (exists n, Req.adults b = Val n /\ n <> 0) ->
      validated b = true
      /\ forall res w' details,
           POST request e w = (Normal res, w') ->
           body res <> ErrorBody "Missing required fields" details).
Proof.
  intros Hb. split.
  - intros Hlack.
    assert (validated b = false) as Hv.
    { unfold validated.
      destruct Hlack as [H|[H|[H|[H|H]]]];
        try (apply bad_lacking in H; rewrite H; cbn [negb andb];
             rewrite ?andb_false_r; reflexivity);
        rewrite H; cbn; rewrite ?andb_false_r; reflexivity. }
    rewrite (POST_run request b e w Hb). cbv zeta. rewrite Hv. cbn [negb].
    eexists. split; [reflexivity|].
    rewrite (proj1 (cors_keeps _ _ _)), (proj2 (cors_keeps _ _ _)).
    split; reflexivity.
  - intros (o & d & t & Ho & Hd & Ht & _ & _ & _ & So & Sd & St) Ha.
    assert (validated b = true) as Hv.
    { unfold validated. rewrite !andb_true_iff, !negb_true_iff, !bad_filled.
      split; [split; [split|]|].
      - exists o. auto.
      - exists d. auto.
      - exists t. auto.
      - destruct Ha as [->|(n & -> & Hn)]; [reflexivity|].
        cbn. unfold truthy_Z. apply negb_true_iff, Z.eqb_neq, Hn. }
    split; [exact Hv|].
    intros res w' details Hrun.
    rewrite (POST_run request b e w Hb) in Hrun. cbv zeta in Hrun.
    rewrite Hv in Hrun. cbn [negb] in Hrun.
    destruct (in_DACH (normalized_code (Req.origin b))); cbn [negb] in Hrun;
      [ destruct (getAmadeusToken e w) as [[tok|tmsg] w1];
        [ destruct (offerService e (sent w1) (offerRequest (process_env e) b tok))
            as [reason|resp];
          [ | destruct (ok resp);
              [ destruct (json resp) as [jmsg|data]
              | destruct (status_accepted (status resp)) ] ]
        | ]
      | ];
      injection Hrun as <- _; rewrite (proj2 (cors_keeps _ _ _));
      unfold server_error, origin_not_allowed, search_result, upstream_error,
        json_response; cbn [body]; discriminate.
Qed.

Lemma POST_required_fields_witness :
  exists res,
    POST (Sample.search "FRA" "   " (Val 2) Undefined) (Sample.env (Val 1799))
      Sample.world0 = (Normal res, Sample.world0)
    /\ statusCode res = 400
    /\ body res = ErrorBody "Missing required fields" None.
Proof.
  apply (proj1 (POST_required_fields
                  (Sample.search "FRA" "   " (Val 2) Undefined)
                  {| Req.origin := Val "FRA"; Req.destination := Val "   ";
                     Req.departDate := Val "2025-06-01"; Req.returnDate := Undefined;
                     Req.adults := Val 2; Req.currency := Undefined;
                     Req.maxFlightHours := Undefined |}
                  (Sample.env (Val 1799)) Sample.world0 eq_refl)).
  right. left. right. right. exists "   ". split; reflexivity.
Defined.

Lemma offerRequest_params (penv : ProcessEnv) (b : Req.Body) (tok : field string) :
  let r := offerRequest penv b tok in
  param "originLocationCode" r = Some (normalized_code (Req.origin b))
  /\ param "destinationLocationCode" r = Some (normalized_code (Req.destination b))
  /\ param "max" r = Some "20"
  /\ param "nonStop" r = Some "false"
  /\ param "adults" r = Some (String_of_Z (clamped_adults b))
  /\ (exists c, c <> "" /\ param "currencyCode" r = Some c)
  /\ (param "returnDate" r = None
      \/ exists d, d <> "" /\ param "returnDate" r = Some d).
Proof.
  cbv zeta. unfold offerRequest, param.
  assert (exists c, c <> "" /\ or_string (default (Req.currency b) "EUR") "EUR" = c)
    as (c & Hc & Ec).
  { destruct (Req.currency b) as [| |[|x cur]]; cbn; eexists;
      (split; [|reflexivity]); discriminate. }
  rewrite Ec.
  destruct (Req.returnDate b) as [| |[|x d]]; cbn;
    repeat (split; [reflexivity|]);
    (split; [exists c; split; [exact Hc|reflexivity]|]);
    try (left; reflexivity).
  right. eexists. split; [|reflexivity]. discriminate.
Qed.

(** X16. Every offer search the handler sends asks for a DACH origin, at
    most 20 offers with [nonStop=false], between 1 and 9 adults, a
    currency code that is not empty, and a return date only when it is not
    empty. *)
Theorem POST_offer_search_params (request : HttpRequest) (e : Env) (w : World)
    (r : Request) :
  In r (sent (snd (POST request e w))) ->
  In r (sent w)
  \/ isTokenRequest r = true
  \/ ((exists o, param "originLocationCode" r = Some o /\ in_DACH o = true)
      /\ param "max" r = Some "20"
      /\ param "nonStop" r = Some "false"
      /\ (exists a, 1 <= a <= 9 /\ param "adults" r = Some (String_of_Z a))
      /\ (exists c, c <> "" /\ param "currencyCode" r = Some c)
      /\ (param "returnDate" r = None
          \/ exists d, d <> "" /\ param "returnDate" r = Some d)).
Proof.
  pose proof (token_access_sends e w) as Ht.
  post_paths request e w; cbn [snd sent sending tick]; try (intros H; left; exact H);
    cbn [snd] in Ht.
  1-6: try rewrite in_app_iff.
  1-6: (destruct Ht as [Ht|Ht]; rewrite Ht; try rewrite in_app_iff;
        intros H;
        repeat match type of H with
               | _ \/ _ => destruct H as [H|H]
               | In _ [_] => destruct H as [H|[]]
               end;
        try (left; exact H);
        try (subst r; right; left; reflexivity)).
  all: subst r; right; right;
    destruct (offerRequest_params (process_env e) b tok)
      as (Ho & _ & Hmax & Hns & Ha & Hc & Hr);
    (split; [eexists; split; [exact Ho|exact Hd]|]);
    (split; [exact Hmax|]); (split; [exact Hns|]);
    (split; [eexists; split; [apply clamped_adults_range|exact Ha]|]);
    split; [exact Hc|exact Hr].
Qed.

Lemma POST_offer_search_params_witness :
  let r := offerRequest Sample.penv Sample.odd_body (Val "tok") in
  In r (sent (snd (POST Sample.odd_request (Sample.env (Val 1799)) Sample.world0)))
  /\ (exists o, param "originLocationCode" r = Some o /\ in_DACH o = true)
  /\ param "adults" r = Some "1"
  /\ param "currencyCode" r = Some "EUR"
  /\ param "returnDate" r = None.
Proof.
  intros r.
  assert (In r (sent (snd (POST Sample.odd_request (Sample.env (Val 1799)) Sample.world0))))
    as Hin by (vm_compute; right; left; reflexivity).
  split; [exact Hin|].
  destruct (POST_offer_search_params Sample.odd_request (Sample.env (Val 1799))
              Sample.world0 r Hin) as [H|[H|(H & _)]].
  - destruct H.
  - discriminate H.
  - split; [exact H|]. repeat split.
Defined.

Lemma toUpperCase_app (s t : string) :
  toUpperCase (s ++ t) = toUpperCase s ++ toUpperCase t.
Proof.
  induction s as [|c s IH]; [reflexivity|]. cbn. rewrite IH. reflexivity.
Qed.

Lemma upperChar_idem (c : ascii) : upperChar (upperChar c) = upperChar c.
Proof.
  unfold upperChar.
  destruct ((97 <=? N_of_ascii c) && (N_of_ascii c <=? 122))%N eqn:E; [|rewrite E; reflexivity].
  apply andb_true_iff in E as [E1 E2]. apply N.leb_le in E1, E2.
  rewrite N_ascii_embedding by lia.
  replace ((97 <=? N_of_ascii c - 32) && (N_of_ascii c - 32 <=? 122))%N with false;
    [reflexivity|].
  symmetry. apply andb_false_iff. left. apply N.leb_gt. lia.
Qed.

Lemma toUpperCase_idem (s : string) : toUpperCase (toUpperCase s) = toUpperCase s.
Proof.
  induction s as [|c s IH]; [reflexivity|]. cbn. rewrite upperChar_idem, IH. reflexivity.
Qed.

Lemma slice0_app (s t : string) :
  slice0 (String.length s) (s ++ t) = s.
Proof.
  unfold slice0. induction s as [|c s IH]; cbn.
  - destruct t; reflexivity.
  - rewrite IH. reflexivity.
Qed.

Lemma slice0_short (n : nat) (s : string) :
  (String.length s <= n)%nat -> slice0 n s = s.
Proof.
  unfold slice0. revert s. induction n as [|n IH]; intros [|c s] H; cbn in *;
    try reflexivity; try lia.
  rewrite IH by lia. reflexivity.
Qed.

Lemma DACH_codes_have_three_letters (code : string) :
  in_DACH code = true -> String.length code = 3%nat.
Proof.
  unfold in_DACH, Set_has. destruct (in_dec string_dec code DACH_IATA) as [Hin|]; [|discriminate].
  intros _.
  assert (Forall (fun c => String.length c = 3%nat) DACH_IATA) as Hall
    by (vm_compute; repeat constructor).
  rewrite Forall_forall in Hall. apply Hall, Hin.
Qed.

(** X17. An origin of fewer than three ASCII characters can never pass
    the whitelist: a request with such an origin and otherwise valid
    fields is answered 400 "Origin not allowed (DACH only)" and nothing is
    sent. *)
Theorem POST_short_origin_rejected (request : HttpRequest) (b : Req.Body)
    (e : Env) (w : World) (s : string) :
  json_body request = inr b ->
  validated b = true ->
  Req.origin b = Val s ->
  all_ascii s = true ->
  (String.length s < 3)%nat ->
  exists res,
    POST request e w = (Normal res, w)
    /\ statusCode res = 400
    /\ body res = ErrorBody "Origin not allowed (DACH only)" None.
Proof.
  intros Hb Hv Ho _ Hlen.
  assert (in_DACH (normalized_code (Req.origin b)) = false) as Hd.
  { destruct (in_DACH (normalized_code (Req.origin b))) eqn:E; [|reflexivity].
    apply DACH_codes_have_three_letters in E.
    rewrite Ho in E. unfold normalized_code, String_of_field, id in E.
    rewrite slice0_length, toUpperCase_length in E. lia. }
  rewrite (POST_run request b e w Hb). cbv zeta. rewrite Hv, Hd. cbn [negb].
  eexists. split; [reflexivity|].
  rewrite (proj1 (cors_keeps _ _ _)), (proj2 (cors_keeps _ _ _)).
  split; reflexivity.
Qed.

Lemma POST_short_origin_rejected_witness :
  exists res,
    POST (Sample.search "ST" "PMI" (Val 1) Undefined) (Sample.env (Val 1799))
      Sample.world0 = (Normal res, Sample.world0)
    /\ statusCode res = 400
    /\ body res = ErrorBody "Origin not allowed (DACH only)" None.
Proof.
  apply (POST_short_origin_rejected
           (Sample.search "ST" "PMI" (Val 1) Undefined)
           {| Req.origin := Val "ST"; Req.destination := Val "PMI";
              Req.departDate := Val "2025-06-01"; Req.returnDate := Undefined;
              Req.adults := Val 1; Req.currency := Undefined;
              Req.maxFlightHours := Undefined |}
           (Sample.env (Val 1799)) Sample.world0 "ST");
    [reflexivity|reflexivity|reflexivity|reflexivity|cbn; lia].
Defined.

(** X18. For an ASCII string the airport code the handler works with
    has at most three characters, ignores the case of the input and
    everything after its third character, and normalizing it again
    changes nothing; so the whitelist decides on the first three
    characters alone. *)
Theorem normalized_code_properties (s rest : string) :
  all_ascii s = true ->
  (String.length (normalized_code (Val s)) <= 3)%nat
  /\ normalized_code (Val (toUpperCase s)) = normalized_code (Val s)
  /\ normalized_code (Val (normalized_code (Val s))) = normalized_code (Val s)
  /\ (String.length s = 3%nat ->
      normalized_code (Val (s ++ rest)) = toUpperCase s
      /\ in_DACH (normalized_code (Val (s ++ rest))) = in_DACH (toUpperCase s)).
Proof.
  intros _.
  unfold normalized_code, String_of_field, id.
  split; [rewrite slice0_length; lia|].
  split; [rewrite toUpperCase_idem; reflexivity|].
  assert (forall n s, toUpperCase (slice0 n s) = slice0 n (toUpperCase s)) as Hcomm.
  { unfold slice0. induction n as [|n IH]; intros [|c t]; cbn; try reflexivity.
    rewrite IH. reflexivity. }
  split.
  - rewrite Hcomm, toUpperCase_idem. apply slice0_short.
    rewrite slice0_length. lia.
  - intros Hlen.
    assert (slice0 3 (toUpperCase (s ++ rest)) = toUpperCase s) as E.
    { rewrite toUpperCase_app. rewrite <- Hlen, <- (toUpperCase_length s).
      apply slice0_app. }
    rewrite E. split; reflexivity.
Qed.

Lemma normalized_code_properties_witness :
  (String.length (normalized_code (Val "muc")) <= 3)%nat
  /\ normalized_code (Val (toUpperCase "muc")) = normalized_code (Val "muc")
  /\ normalized_code (Val (normalized_code (Val "muc"))) = normalized_code (Val "muc")
  /\ (String.length "muc" = 3%nat ->
      normalized_code (Val ("muc" ++ "nich")) = toUpperCase "muc"
      /\ in_DACH (normalized_code (Val ("muc" ++ "nich"))) = in_DACH (toUpperCase "muc")).
Proof.
  apply (normalized_code_properties "muc" "nich"). reflexivity.
Defined.

End HandlerMore.

(** ** The CORS helpers *)

Section Cors.
Local Open Scope string_scope.
Local Open Scope Z_scope.

Lemma header_get_set_same (name value : string) (res : Response) :
  header_get name (set_header name value res) = Some value.
Proof.
  unfold header_get, set_header. cbn [headers].
  induction (headers res) as [|[n v] hs IH]; cbn.
  - rewrite String.eqb_refl. reflexivity.
  - destruct (String.eqb n name) eqn:E; cbn; rewrite E; [reflexivity|exact IH].
Qed.

Lemma header_get_set_other (name value other : string) (res : Response) :
  name <> other ->
  header_get other (set_header name value res) = header_get other res.
Proof.
  intros Hne. unfold header_get, set_header. cbn [headers].
  induction (headers res) as [|[n v] hs IH]; cbn.
  - apply String.eqb_neq in Hne. rewrite Hne. reflexivity.
  - destruct (String.eqb n name) eqn:E; cbn.
    + apply String.eqb_eq in E. subst n.
      apply String.eqb_neq in Hne. rewrite Hne. reflexivity.
    + destruct (String.eqb n other); [reflexivity|exact IH].
Qed.

Lemma cors_by_origin_allowed (penv : ProcessEnv) (res : Response) (origin : option string) :
  cors penv res origin
  = set_header "Access-Control-Allow-Headers" "Content-Type"
      (set_header "Access-Control-Allow-Methods" "POST, OPTIONS"
         (if origin_allowed penv origin
          then set_header "Vary" "Origin"
                 (set_header "Access-Control-Allow-Origin"
                    (match origin with Some o => o | None => "" end) res)
          else res)).
Proof.
  unfold cors, origin_allowed. destruct origin as [o|]; [|reflexivity].
  destruct (truthy_string o && existsb _ _); reflexivity.
Qed.

Lemma cors_headers (penv : ProcessEnv) (res : Response) (origin : option string) :
  let res' := cors penv res origin in
  header_get "Access-Control-Allow-Methods" res' = Some "POST, OPTIONS"
  /\ header_get "Access-Control-Allow-Headers" res' = Some "Content-Type"
  /\ (forall name,
        name <> "Access-Control-Allow-Origin" -> name <> "Vary" ->
        name <> "Access-Control-Allow-Methods" -> name <> "Access-Control-Allow-Headers" ->
        header_get name res' = header_get name res)
  /\ (origin_allowed penv origin = true ->
      header_get "Access-Control-Allow-Origin" res' = origin
      /\ header_get "Vary" res' = Some "Origin")
  /\ (origin_allowed penv origin = false ->
      header_get "Access-Control-Allow-Origin" res' = header_get "Access-Control-Allow-Origin" res
      /\ header_get "Vary" res' = header_get "Vary" res).
Proof.
  cbv zeta. rewrite cors_by_origin_allowed.
  split; [|split; [|split; [|split]]].
  - rewrite header_get_set_other by discriminate. apply header_get_set_same.
  - apply header_get_set_same.
  - intros name H1 H2 H3 H4.
    rewrite !header_get_set_other by congruence.
    destruct (origin_allowed penv origin); [|reflexivity].
    rewrite !header_get_set_other by congruence. reflexivity.
  - intros Ha. rewrite Ha.
    assert (exists o, origin = Some o) as [o ->]
      by (destruct origin; [eexists; reflexivity|discriminate Ha]).
    split.
    + rewrite !header_get_set_other by discriminate. apply header_get_set_same.
    + rewrite !header_get_set_other by discriminate. apply header_get_set_same.
  - intros Ha. rewrite Ha.
    split; rewrite !header_get_set_other by discriminate; reflexivity.
Qed.

(** X19. [withCORS] changes neither status nor body and touches four
    headers only.  It always sets the allowed methods to "POST, OPTIONS"
    and the allowed headers to "Content-Type"; it sets
    Access-Control-Allow-Origin, to the caller's own origin and together
    with "Vary: Origin", exactly when that origin is not empty and is one
    of the allowed origins, and otherwise leaves both as they were. *)
Theorem withCORS_headers (res : Response) (origin : option string) (e : Env) (w : World) :
  exists res',
    withCORS res origin e w = (Normal res', w)
    /\ statusCode res' = statusCode res
    /\ body res' = body res
    /\ header_get "Access-Control-Allow-Methods" res' = Some "POST, OPTIONS"
    /\ header_get "Access-Control-Allow-Headers" res' = Some "Content-Type"
    /\ (forall name,
          name <> "Access-Control-Allow-Origin" -> name <> "Vary" ->
          name <> "Access-Control-Allow-Methods" ->
          name <> "Access-Control-Allow-Headers" ->
          header_get name res' = header_get name res)
    /\ (origin_allowed (process_env e) origin = true ->
        header_get "Access-Control-Allow-Origin" res' = origin
        /\ header_get "Vary" res' = Some "Origin")
    /\ (origin_allowed (process_env e) origin = false ->
        header_get "Access-Control-Allow-Origin" res'
        = header_get "Access-Control-Allow-Origin" res
        /\ header_get "Vary" res' = header_get "Vary" res).
Proof.
  exists (cors (process_env e) res origin).
  split; [apply withCORS_run|].
  split; [apply cors_keeps|]. split; [apply cors_keeps|].
  apply cors_headers.
Qed.

Lemma truthy_string_iff (s : string) : truthy_string s = true <-> s <> "".
Proof.
  destruct s; cbn; split; try discriminate; try reflexivity.
  intros H. destruct (H eq_refl).
Qed.

Lemma parseAllowedOrigins_members (penv : ProcessEnv) (x : string) :
  In x (parseAllowedOrigins penv) <->
  x = "http://localhost:3000" \/ x = "http://127.0.0.1:3000"
  \/ (x <> ""
      /\ (x = trim (env_or (ALLOWED_ORIGIN penv) "")
          \/ exists piece,
               In piece (split_comma (env_or (ALLOWED_ORIGINS penv) ""))
               /\ x = trim piece)).
Proof.
  unfold parseAllowedOrigins.
  rewrite new_Set_In, in_app_iff, filter_In, in_app_iff, filter_In, in_map_iff,
    !truthy_string_iff.
  cbn [In].
  split; intros H;
    repeat match goal with
           | H : _ \/ _ |- _ => destruct H
           | H : _ /\ _ |- _ => destruct H
           | H : exists _, _ |- _ => destruct H
           | H : False |- _ => destruct H
           end; subst; eauto 10.
Qed.

(** X20. The allowed origins: the list holds no origin twice, and an
    origin is in it exactly when it is one of the two local development
    origins, or is not empty and is the trimmed ALLOWED_ORIGIN or a
    trimmed comma-separated piece of ALLOWED_ORIGINS.  The development
    origins are allowed under every configuration. *)
Theorem parseAllowedOrigins_spec (penv : ProcessEnv) (o : string) :
  NoDup (parseAllowedOrigins penv)
  /\ (In o (parseAllowedOrigins penv) <->
      o = "http://localhost:3000" \/ o = "http://127.0.0.1:3000"
      \/ (o <> ""
          /\ (o = trim (env_or (ALLOWED_ORIGIN penv) "")
              \/ exists piece,
                   In piece (split_comma (env_or (ALLOWED_ORIGINS penv) ""))
                   /\ o = trim piece)))
  /\ origin_allowed penv (Some "http://localhost:3000") = true
  /\ origin_allowed penv (Some "http://127.0.0.1:3000") = true.
Proof.
  assert (forall x, x <> "" -> In x (parseAllowedOrigins penv) ->
                    origin_allowed penv (Some x) = true) as Hallow.
  { intros x Hx Hi. unfold origin_allowed.
    apply andb_true_iff. split; [apply truthy_string_iff, Hx|].
    apply existsb_exists. exists x. split; [exact Hi|apply String.eqb_refl]. }
  split; [apply new_Set_NoDup|]. split; [apply parseAllowedOrigins_members|].
  split; apply Hallow; try discriminate; apply parseAllowedOrigins_members; auto.
Qed.

Ltac post_paths request e w :=
  destruct (json_body request) as [umsg|b] eqn:Hb;
  [ rewrite (POST_unparsed request umsg e w Hb)
  | rewrite (POST_run request b e w Hb); cbv zeta;
    destruct (validated b) eqn:Hv; cbn [negb];
    [ destruct (in_DACH (normalized_code (Req.origin b))) eqn:Hd; cbn [negb];
      [ destruct (getAmadeusToken e w) as [[tok|tmsg] w1] eqn:Hg;
        [ destruct (offerService e (sent w1) (offerRequest (process_env e) b tok))
            as [reason|resp] eqn:Hs;
          [ | destruct (ok resp) eqn:Hok;
              [ destruct (json resp) as [jmsg|data] eqn:Hj
              | destruct (status_accepted (status resp)) eqn:Hst ] ]
        | ]
      | ]
    | ] ].

(** X21. Every answer of the handler, error or result, has gone through
    [withCORS]: it is JSON, names "POST, OPTIONS" and "Content-Type" as
    allowed methods and headers, and carries Access-Control-Allow-Origin
    (the caller's own origin) and "Vary: Origin" exactly when the
    caller's origin is allowed, and not at all otherwise. *)
Theorem POST_cors (request : HttpRequest) (e : Env) (w : World) :
  exists res w',
    POST request e w = (Normal res, w')
    /\ header_get "content-type" res = Some "application/json"
    /\ header_get "Access-Control-Allow-Methods" res = Some "POST, OPTIONS"
    /\ header_get "Access-Control-Allow-Headers" res = Some "Content-Type"
    /\ header_get "Access-Control-Allow-Origin" res
       = (if origin_allowed (process_env e) (header_origin request)
          then header_origin request else None)
    /\ header_get "Vary" res
       = (if origin_allowed (process_env e) (header_origin request)
          then Some "Origin" else None).
Proof.
  assert (exists r w',
             POST request e w
             = (Normal (cors (process_env e) r (header_origin request)), w')
             /\ headers r = [("content-type", "application/json")])
    as (r & w' & Hrun & Hr).
  { post_paths request e w; eexists; eexists; (split; [reflexivity|reflexivity]). }
  exists (cors (process_env e) r (header_origin request)), w'.
  split; [exact Hrun|].
  destruct (cors_headers (process_env e) r (header_origin request))
    as (Hm & Hh & Hother & Hyes & Hno).
  assert (forall name, name <> "content-type" -> header_get name r = None) as Hnone.
  { intros name Hn. unfold header_get. rewrite Hr. cbn [find fst].
    destruct (String.eqb_spec "content-type" name) as [E|_]; [congruence|reflexivity]. }
  split.
  { rewrite Hother by discriminate. unfold header_get. rewrite Hr. reflexivity. }
  split; [exact Hm|]. split; [exact Hh|].
  destruct (origin_allowed (process_env e) (header_origin request)).
  - destruct (Hyes eq_refl) as [Ho Hv]. split; assumption.
  - destruct (Hno eq_refl) as [Ho Hv]. rewrite Ho, Hv, !Hnone by discriminate.
    split; reflexivity.
Qed.

(** The older copy, path by path. *)
Lemma Legacy_getAmadeusToken_same (e : Env) (w : World) :
  base_url (process_env e) = "https://test.api.amadeus.com" ->
  Legacy.getAmadeusToken e w = getAmadeusToken e w.
Proof.
  intros Hbase.
  unfold Legacy.getAmadeusToken, getAmadeusToken, bind, Date_now, get_tokenCache, get_env.
  cbv beta iota zeta.
  match goal with |- context [if ?c then _ else _] => destruct c end; [reflexivity|].
  cbv beta. rewrite Hbase. reflexivity.
Qed.

Lemma Legacy_withCORS_same (res : Response) (origin : option string) (e : Env) (w : World) :
  env_or (ALLOWED_ORIGINS (process_env e)) "" = "" ->
  trim (env_or (ALLOWED_ORIGIN (process_env e)) "")
  = env_or (ALLOWED_ORIGIN (process_env e)) "" ->
  Legacy.withCORS res origin e w = (Normal (cors (process_env e) res origin), w).
Proof.
  intros Hmulti Hsingle.
  unfold Legacy.withCORS, bind, get_env, ret. cbn [fst snd].
  unfold cors. destruct origin as [o|]; [|reflexivity].
  replace (existsb (fun a => String.eqb a o) (parseAllowedOrigins (process_env e)))
    with (truthy_string (env_or (ALLOWED_ORIGIN (process_env e)) "")
          && String.eqb o (env_or (ALLOWED_ORIGIN (process_env e)) "")
          || existsb (fun a => String.eqb a o)
               ["http://localhost:3000"; "http://127.0.0.1:3000"]).
  - destruct (String.eqb_spec o (env_or (ALLOWED_ORIGIN (process_env e)) "")) as [<-|];
      [|rewrite andb_false_r; reflexivity].
    destruct (truthy_string o); reflexivity.
  - apply eq_true_iff_eq.
    rewrite orb_true_iff, andb_true_iff, !existsb_exists, truthy_string_iff.
    split.
    + intros [[Ha E]|(x & Hx & E)].
      * apply String.eqb_eq in E. subst o.
        exists (env_or (ALLOWED_ORIGIN (process_env e)) "").
        split; [|apply String.eqb_refl].
        apply (parseAllowedOrigins_members (process_env e)). right. right.
        split; [exact Ha|]. left. symmetry. exact Hsingle.
      * exists x. split; [|exact E].
        apply (parseAllowedOrigins_members (process_env e)).
        destruct Hx as [<-|[<-|[]]]; auto.
    + intros (x & Hx & E).
      apply (parseAllowedOrigins_members (process_env e)) in Hx.
      destruct Hx as [->|[->|(Hne & [Ex|(piece & Hp & Ex)])]].
      * right. eexists. split; [left; reflexivity|exact E].
      * right. eexists. split; [right; left; reflexivity|exact E].
      * left. rewrite Hsingle in Ex. subst x.
        split; [exact Hne|]. rewrite String.eqb_sym. exact E.
      * exfalso. rewrite Hmulti in Hp. destruct Hp as [<-|[]].
        apply Hne. exact Ex.
Qed.

Lemma base_url_test (penv : ProcessEnv) :
  env_or (AMADEUS_ENV penv) "test" <> "production" ->
  base_url penv = "https://test.api.amadeus.com".
Proof.
  intros Hne. unfold base_url.
  destruct (String.eqb_spec (env_or (AMADEUS_ENV penv) "test") "production") as [E|_];
    [destruct (Hne E)|reflexivity].
Qed.

(** X22. The older copy of the handler (fixed test host, one allowed
    origin compared untrimmed) answers exactly as the current one, and
    leaves the same cache, clock and calls behind, whenever AMADEUS_ENV
    does not select production, ALLOWED_ORIGINS is unset or empty and
    ALLOWED_ORIGIN carries no surrounding white space. *)
Theorem Legacy_POST_agrees (request : HttpRequest) (e : Env) (w : World) :
  env_or (AMADEUS_ENV (process_env e)) "test" <> "production" ->
  env_or (ALLOWED_ORIGINS (process_env e)) "" = "" ->
  trim (env_or (ALLOWED_ORIGIN (process_env e)) "")
  = env_or (ALLOWED_ORIGIN (process_env e)) "" ->
  Legacy.POST request e w = POST request e w.
Proof.
  intros Henv Hmulti Hsingle.
  pose proof (base_url_test (process_env e) Henv) as Hbase.
  assert (forall r w0,
             Legacy.withCORS r (header_origin request) e w0
             = (Normal (cors (process_env e) r (header_origin request)), w0)) as Hcors.
  { intros r w0. apply Legacy_withCORS_same; assumption. }
  assert (forall body st w0,
             status_accepted st = true ->
             bind (NextResponse_json body st)
               (fun res => Legacy.withCORS res (header_origin request)) e w0
             = (Normal (cors (process_env e) (json_response body st)
                          (header_origin request)), w0)) as Hanswer.
  { intros body st w0 Hst. unfold bind, NextResponse_json. rewrite Hst. apply Hcors. }
  destruct (json_body request) as [umsg|b] eqn:Hb.
  - rewrite (POST_unparsed request umsg e w Hb).
    unfold Legacy.POST, try_catch, bind at 1, request_json. rewrite Hb.
    cbv beta iota zeta. unfold throw. cbv beta iota.
    rewrite Hanswer by reflexivity. reflexivity.
  - rewrite (POST_run request b e w Hb). cbv zeta.
    unfold Legacy.POST, try_catch, bind at 1, request_json. rewrite Hb. cbn [ret].
    unfold validated.
    destruct (bad (Req.origin b));
      [cbn [orb negb]; rewrite Hanswer by reflexivity; reflexivity|].
    destruct (bad (Req.destination b));
      [cbn [orb negb]; rewrite Hanswer by reflexivity; reflexivity|].
    destruct (bad (Req.departDate b));
      [cbn [orb negb]; rewrite Hanswer by reflexivity; reflexivity|].
    destruct (truthy_field truthy_Z (default (Req.adults b) 1));
      [|cbn [orb negb]; rewrite Hanswer by reflexivity; reflexivity].
    cbn [negb orb andb].
    fold (normalized_code (Req.origin b)). fold (normalized_code (Req.destination b)).
    fold (in_DACH (normalized_code (Req.origin b))).
    destruct (in_DACH (normalized_code (Req.origin b)));
      [|cbn [negb]; rewrite Hanswer by reflexivity; reflexivity].
    cbn [negb]. unfold bind at 1.
    rewrite (Legacy_getAmadeusToken_same e w Hbase).
    destruct (getAmadeusToken e w) as [[tok|tmsg] w1];
      [|rewrite Hanswer by reflexivity; reflexivity].
    unfold bind at 1, fetch.
    unfold offerRequest. rewrite Hbase.
    cbn [String.append].
    match goal with
    | |- context [offerService e (sent w1) ?r] =>
        match goal with
        | |- context [offerService e (sent w1) ?r'] =>
            tryif constr_eq r r' then fail else change r' with r
        end;
        destruct (offerService e (sent w1) r) as [reason|resp]
    end; [rewrite Hanswer by reflexivity; reflexivity|].
    cbv beta iota zeta.
    destruct (ok resp); cbn [negb].
    + unfold bind at 1, resp_json.
      destruct (json resp) as [jmsg|[d|]].
      * unfold throw. cbv beta iota. rewrite Hanswer by reflexivity. reflexivity.
      * unfold ret, bind at 1, Date_now. cbv beta iota zeta.
        rewrite Hanswer by reflexivity. reflexivity.
      * unfold ret, bind at 1, Date_now. cbv beta iota zeta.
        rewrite Hanswer by reflexivity. reflexivity.
    + destruct (status_accepted (status resp)) eqn:Hst.
      * rewrite Hanswer by exact Hst. reflexivity.
      * unfold bind at 1, NextResponse_json at 1. rewrite Hst.
        rewrite Hanswer by reflexivity. reflexivity.
Qed.

Lemma Legacy_POST_agrees_witness :
  Legacy.POST (Sample.search "FRA" "JFK" (Val 2) (Val 17%Q))
    Sample.env_single_origin Sample.world0
  = POST (Sample.search "FRA" "JFK" (Val 2) (Val 17%Q))
      Sample.env_single_origin Sample.world0.
Proof.
  apply (Legacy_POST_agrees (Sample.search "FRA" "JFK" (Val 2) (Val 17%Q))
           Sample.env_single_origin Sample.world0).
  - vm_compute. discriminate.
  - reflexivity.
  - reflexivity.
Defined.

(** The preflight handler: a 204 goes with no body, so
    [NextResponse.json({}, { status: 204 })] is refused and [OPTIONS]
    throws before it reaches [withCORS]. *)
Lemma OPTIONS_throws (request : HttpRequest) (e : Env) (w : World) :
  OPTIONS request e w = (Throw (responseError e 204), w).
Proof. reflexivity. Qed.

End Cors.
